(** * Notely: the note service layer (src/services.py, src/models.py, src/db.py)

    A shallow embedding of the service functions of the repository and the
    properties its specification states about them.

    Modelling conventions.
    - Python [str] values are [string]s of ASCII characters; [strip], [lower],
      [isdigit] and the ordering used by [sorted] are the ASCII ones.
    - Python [int] values are [Z]; timestamps are [Z] (microseconds).
      Inputs stay within the interpreter's own limits: a string of digits
      given to [int] has at most 4300 characters (beyond that default
      limit [int] raises [ValueError]).
    - The notes table is the list of its rows in rowid order.  The storage
      engine is SQLite (src/db.py builds a [sqlite:///] URL): new rows get
      the largest id plus one, a [select] without [order_by] scans rows in
      rowid order, and [LIKE] is SQLite's operator, in which [%] matches any
      run of characters, [_] any one character, and ASCII letters match
      without regard to case; it reads pattern and text up to their first
      NUL character and refuses a pattern of more than 50000 bytes.  The
      driver refuses to bind an integer outside the signed 64-bit range.
    - [datetime.now(UTC)] reads a clock; the world carries the clock and the
      number of readings taken so far.
    - A service function is a computation in a state-and-exception monad
      over the world; [session_scope] commits on normal exit and rolls the
      table back when the body raises. *)

From Stdlib Require Import String Ascii List ZArith NArith Lia Bool Sorted.
From Stdlib Require Import DecimalString Decimal.
From Stdlib Require Import DecimalPos Permutation.
Import ListNotations.

Local Open Scope string_scope.
Local Open Scope Z_scope.

(** ** Python strings *)

Module PyStr.

(** [str.isspace] on one ASCII character: tab, newline, vertical tab, form
    feed, carriage return, the four separators 0x1c-0x1f, and space. *)
Definition isspace (c : ascii) : bool :=
  let n := N_of_ascii c in
  ((9 <=? n) && (n <=? 13) || (28 <=? n) && (n <=? 32))%N.

Definition isupper (c : ascii) : bool :=
  let n := N_of_ascii c in ((65 <=? n) && (n <=? 90))%N.

Definition isdigit_char (c : ascii) : bool :=
  let n := N_of_ascii c in ((48 <=? n) && (n <=? 57))%N.

Definition lower_char (c : ascii) : ascii :=
  if isupper c then ascii_of_N (N_of_ascii c + 32) else c.

(** [s.lower()] *)
Fixpoint lower (s : string) : string :=
  match s with
  | EmptyString => EmptyString
  | String c s' => String (lower_char c) (lower s')
  end.

Fixpoint lstrip (s : string) : string :=
  match s with
  | EmptyString => EmptyString
  | String c s' => if isspace c then lstrip s' else s
  end.

Fixpoint rstrip (s : string) : string :=
  match s with
  | EmptyString => EmptyString
  | String c s' =>
      match rstrip s' with
      | EmptyString => if isspace c then EmptyString else String c EmptyString
      | r => String c r
      end
  end.

(** [s.strip()] *)
Definition strip (s : string) : string := rstrip (lstrip s).

(** Truth value of a string: non-empty. *)
Definition truthy (s : string) : bool :=
  match s with EmptyString => false | _ => true end.

Fixpoint all_chars (p : ascii -> bool) (s : string) : bool :=
  match s with
  | EmptyString => true
  | String c s' => p c && all_chars p s'
  end.

(** [s.isdigit()]: at least one character, and all of them digits. *)
Definition isdigit (s : string) : bool :=
  truthy s && all_chars isdigit_char s.

(** [int(s)] for a string of digits, most significant digit first. *)
Fixpoint int_digits (acc : Z) (s : string) : Z :=
  match s with
  | EmptyString => acc
  | String c s' =>
      int_digits (10 * acc + (Z.of_N (N_of_ascii c) - 48)) s'
  end.

Definition int_of_str (s : string) : Z := int_digits 0 s.

(** [str(n)] for an integer. *)
Definition str_of_int (n : Z) : string :=
  NilZero.string_of_int (Z.to_int n).

(** [sep.join(l)] *)
Fixpoint join (sep : string) (l : list string) : string :=
  match l with
  | [] => EmptyString
  | [x] => x
  | x :: l' => x ++ sep ++ join sep l'
  end.

(** [needle in hay], case-sensitive. *)
Fixpoint contains (needle hay : string) : bool :=
  String.prefix needle hay ||
  match hay with
  | EmptyString => false
  | String _ hay' => contains needle hay'
  end.

(** [set(l)] followed by [sorted]: the set keeps one copy of each element,
    [sorted] orders them by code point. *)
Definition set_of (l : list string) : list string := nodup string_dec l.

Fixpoint insert_sorted (x : string) (l : list string) : list string :=
  match l with
  | [] => [x]
  | y :: l' => if String.leb x y then x :: l else y :: insert_sorted x l'
  end.

Fixpoint sorted (l : list string) : list string :=
  match l with
  | [] => []
  | x :: l' => insert_sorted x (sorted l')
  end.

End PyStr.

(** ** The storage engine's LIKE operator *)

Module Sql.

Definition is_percent (c : ascii) : bool := Ascii.eqb c "%".
Definition is_underscore (c : ascii) : bool := Ascii.eqb c "_".

Definition is_nul (c : ascii) : bool := Ascii.eqb c Ascii.zero.

(** A text as the engine reads it: up to its first NUL character. *)
Fixpoint upto_nul (s : string) : string :=
  match s with
  | EmptyString => EmptyString
  | String c s' => if is_nul c then EmptyString else String c (upto_nul s')
  end.

(** The comparison behind LIKE, without an ESCAPE clause: [%] matches any
    run of characters (the inner loop tries every suffix of the text), [_]
    matches one character, any other character matches itself up to ASCII
    case. *)
Fixpoint pattern_compare (pattern : string) : string -> bool :=
  match pattern with
  | EmptyString =>
      fun text => match text with EmptyString => true | _ => false end
  | String c pattern' =>
      if is_percent c then
        fix any_run (text : string) : bool :=
          pattern_compare pattern' text ||
          match text with
          | EmptyString => false
          | String _ text' => any_run text'
          end
      else if is_underscore c then
        fun text =>
          match text with
          | EmptyString => false
          | String _ text' => pattern_compare pattern' text'
          end
      else
        fun text =>
          match text with
          | EmptyString => false
          | String d text' =>
              Ascii.eqb (PyStr.lower_char c) (PyStr.lower_char d)
              && pattern_compare pattern' text'
          end
  end.

(** [text LIKE pattern], when the engine evaluates it: both operands are
    read up to their first NUL. *)
Definition like (pattern text : string) : bool :=
  pattern_compare (upto_nul pattern) (upto_nul text).

(** The engine refuses to evaluate a LIKE whose pattern, NUL or not, is
    longer than 50000 bytes. *)
Definition too_complex (pattern : string) : bool :=
  Z.ltb 50000 (Z.of_nat (String.length pattern)).

(** A string in which no character is a LIKE wildcard. *)
Definition wildcard_free (s : string) : bool :=
  PyStr.all_chars (fun c => negb (is_percent c || is_underscore c)) s.

(** A string without a NUL character. *)
Definition nul_free (s : string) : bool :=
  PyStr.all_chars (fun c => negb (is_nul c)) s.

End Sql.

(** ** src/services.py: tag normalization *)

(** [_normal_tags]: [None] and the empty list give [[]]; otherwise the sorted
    set of [t.strip().lower()] over the tags [t] with [t] and [t.strip()]
    non-empty. *)
Definition _normal_tags (tags : option (list string)) : list string :=
  match tags with
  | None => []
  | Some [] => []
  | Some l =>
      PyStr.sorted
        (PyStr.set_of
           (map (fun t => PyStr.lower (PyStr.strip t))
                (filter (fun t => PyStr.truthy t && PyStr.truthy (PyStr.strip t)) l)))
  end.

(** ** src/services.py: the link pattern *)

(** [BACKLINK_RE = re.compile(r"\[\[([^\]]+)\]\]")]. *)
Module BACKLINK_RE.

Definition is_rbracket (c : ascii) : bool := Ascii.eqb c "]".
Definition is_lbracket (c : ascii) : bool := Ascii.eqb c "[".

(** The greedy class [[^\]]+]: the longest run of characters other than the
    closing bracket, and what follows it. *)
Fixpoint span_class (s : string) : string * string :=
  match s with
  | EmptyString => (EmptyString, EmptyString)
  | String c s' =>
      if is_rbracket c then (EmptyString, s)
      else let (g, r) := span_class s' in (String c g, r)
  end.

(** A match anchored at the start of [s]: group 1 and the length of the whole
    match.  The class is greedy; giving characters back cannot help, since
    the character after a shorter run is not a closing bracket. *)
Definition match_at (s : string) : option (string * nat) :=
  match s with
  | String c1 (String c2 s1) =>
      if is_lbracket c1 && is_lbracket c2 then
        let (g, r) := span_class s1 in
        match g, r with
        | String _ _, String d1 (String d2 _) =>
            if is_rbracket d1 && is_rbracket d2
            then Some (g, (4 + String.length g)%nat)
            else None
        | _, _ => None
        end
      else None
  | _ => None
  end.

(** [finditer]: group 1 of the successive non-overlapping matches, scanning
    from the left; [skip] counts the characters of the last match still to
    be passed over. *)
Fixpoint finditer_from (skip : nat) (s : string) : list string :=
  match s with
  | EmptyString => []
  | String _ s' =>
      match skip with
      | S k => finditer_from k s'
      | O =>
          match match_at s with
          | Some (g, len) => g :: finditer_from (Nat.pred len) s'
          | None => finditer_from 0 s'
          end
      end
  end.

Definition finditer (s : string) : list string := finditer_from 0 s.

End BACKLINK_RE.

(** [extract_links] *)
Definition extract_links (content : option string) : list string :=
  match content with
  | None => []
  | Some EmptyString => []
  | Some c =>
      PyStr.sorted (PyStr.set_of (map PyStr.strip (BACKLINK_RE.finditer c)))
  end.

(** ** src/models.py: the Note row *)

Definition datetime := Z.

Record Note := mkNote {
  id : option Z;
  title : string;
  content : string;
  tags_csv : string;
  pinned : bool;
  archived : bool;
  created_at : datetime;
  updated_at : datetime
}.

Definition with_id (v : option Z) (n : Note) : Note :=
  mkNote v (title n) (content n) (tags_csv n) (pinned n) (archived n)
         (created_at n) (updated_at n).
Definition with_title (v : string) (n : Note) : Note :=
  mkNote (id n) v (content n) (tags_csv n) (pinned n) (archived n)
         (created_at n) (updated_at n).
Definition with_content (v : string) (n : Note) : Note :=
  mkNote (id n) (title n) v (tags_csv n) (pinned n) (archived n)
         (created_at n) (updated_at n).
Definition with_tags_csv (v : string) (n : Note) : Note :=
  mkNote (id n) (title n) (content n) v (pinned n) (archived n)
         (created_at n) (updated_at n).
Definition with_pinned (v : bool) (n : Note) : Note :=
  mkNote (id n) (title n) (content n) (tags_csv n) v (archived n)
         (created_at n) (updated_at n).
Definition with_archived (v : bool) (n : Note) : Note :=
  mkNote (id n) (title n) (content n) (tags_csv n) (pinned n) v
         (created_at n) (updated_at n).
Definition with_updated_at (v : datetime) (n : Note) : Note :=
  mkNote (id n) (title n) (content n) (tags_csv n) (pinned n) (archived n)
         (created_at n) v.

(** [Note.set_tags]: an absent or empty list clears the column; otherwise the
    list is normalized (the same expression as in [_normal_tags]) and joined
    with commas. *)
Definition set_tags (tags : option (list string)) (n : Note) : Note :=
  match tags with
  | None => with_tags_csv EmptyString n
  | Some [] => with_tags_csv EmptyString n
  | Some l =>
      let norm :=
        PyStr.sorted
          (PyStr.set_of
             (map (fun t => PyStr.lower (PyStr.strip t))
                  (filter (fun t => PyStr.truthy t && PyStr.truthy (PyStr.strip t)) l))) in
      with_tags_csv (PyStr.join "," norm) n
  end.

(** [tags_csv.split(",")] *)
Fixpoint split_comma (cur : string) (s : string) : list string :=
  match s with
  | EmptyString => [cur]
  | String c s' =>
      if Ascii.eqb c ","
      then cur :: split_comma EmptyString s'
      else split_comma (cur ++ String c EmptyString) s'
  end.

(** The [Note.tags] property. *)
Definition tags (n : Note) : list string :=
  match tags_csv n with
  | EmptyString => []
  | csv => filter PyStr.truthy (split_comma EmptyString csv)
  end.

(** ** src/db.py: the world, sessions and transactions *)

(** The exceptions that reach the caller: the service's own [ValueError],
    the driver's [OverflowError] for an integer it cannot bind, and the
    [OperationalError] with which the engine refuses a statement. *)
Inductive exn : Type :=
| ValueError (msg : string)
| OverflowError (msg : string)
| OperationalError (msg : string).

Inductive result (A : Type) : Type :=
| Ok (a : A)
| Raise (e : exn).

Arguments Ok {A} a.
Arguments Raise {A} e.

Record world := mkWorld {
  table : list Note;
  clock : nat -> datetime;
  ticks : nat
}.

Definition M (A : Type) : Type := world -> result A * world.

Definition ret {A : Type} (a : A) : M A := fun w => (Ok a, w).

Definition bind {A B : Type} (c : M A) (k : A -> M B) : M B :=
  fun w =>
    match c w with
    | (Ok a, w') => k a w'
    | (Raise e, w') => (Raise e, w')
    end.

Definition raise {A : Type} (e : exn) : M A := fun w => (Raise e, w).

Declare Scope py_scope.
Delimit Scope py_scope with py.
Notation "x <- c ;; k" := (bind c (fun x => k))
  (at level 61, c at next level, right associativity) : py_scope.
Notation "c ;;; k" := (bind c (fun _ => k))
  (at level 61, right associativity) : py_scope.
Local Open Scope py_scope.

(** [datetime.now(UTC)]: the next reading of the clock. *)
Definition now : M datetime :=
  fun w => (Ok (clock w (ticks w)), mkWorld (table w) (clock w) (S (ticks w))).

Definition rows : M (list Note) := fun w => (Ok (table w), w).

Definition store (t : list Note) : M unit :=
  fun w => (Ok tt, mkWorld t (clock w) (ticks w)).

(** [session_scope]: commit when the body returns, roll the table back and
    re-raise when it raises. *)
Definition session_scope {A : Type} (body : M A) : M A :=
  fun w =>
    match body w with
    | (Ok a, w') => (Ok a, w')
    | (Raise e, w') => (Raise e, mkWorld (table w) (clock w') (ticks w'))
    end.

Definition has_id (k : Z) (n : Note) : bool :=
  match id n with
  | Some j => Z.eqb j k
  | None => false
  end.

Definition same_row (n r : Note) : bool :=
  match id n with
  | Some k => has_id k r
  | None => false
  end.

(** The integers the driver binds: the signed 64-bit range. *)
Definition int64 (k : Z) : bool :=
  Z.leb (- 2 ^ 63) k && Z.leb k (2 ^ 63 - 1).

Definition int_too_large : exn :=
  OverflowError "Python int too large to convert to SQLite INTEGER".

(** [s.get(Note, k)]: the row with primary key [k].  The driver raises
    [OverflowError] while it binds a key outside the signed 64-bit range.
    The rowids of a stored table lie inside that range, so a key outside it
    is carried by no row: the lookup raises when the key is out of range
    and no row carries it, which on a stored table is whenever the key is
    out of range. *)
Definition Session_get (k : Z) : M (option Note) :=
  t <- rows ;;
  match find (has_id k) t with
  | Some r => ret (Some r)
  | None => if int64 k then ret None else raise int_too_large
  end.

Definition max_rowid (t : list Note) : option Z :=
  fold_right
    (fun n acc =>
       match id n, acc with
       | Some j, Some a => Some (Z.max j a)
       | Some j, None => Some j
       | None, a => a
       end)
    None t.

Definition next_rowid (t : list Note) : Z :=
  match max_rowid t with
  | Some m => m + 1
  | None => 1
  end.

(** [s.add(note); s.flush()] for a new object: the row is inserted under the
    next rowid, which the object receives. *)
Definition Session_insert (n : Note) : M Note :=
  t <- rows ;;
  let n' := with_id (Some (next_rowid t)) n in
  store (t ++ [n']) ;;; ret n'.

(** [s.merge(note)]: the object read by [get_note] in its own session is
    attached to this one, with the values it carries. *)
Definition Session_merge (n : Note) : M Note := ret n.

(** Flushing a modified attached object: its row is rewritten. *)
Definition Session_update (n : Note) : M unit :=
  t <- rows ;; store (map (fun r => if same_row n r then n else r) t).

(** [s.delete(note)], flushed at commit: its row is removed. *)
Definition Session_delete (n : Note) : M unit :=
  t <- rows ;; store (filter (fun r => negb (same_row n r)) t).

(** [s.refresh(note)]: the object is reloaded from its row. *)
Definition Session_refresh (n : Note) : M Note :=
  t <- rows ;;
  ret (match find (same_row n) t with Some r => r | None => n end).

Fixpoint insert_by (le : Note -> Note -> bool) (x : Note) (l : list Note)
  : list Note :=
  match l with
  | [] => [x]
  | y :: l' => if le x y then x :: l else y :: insert_by le x l'
  end.

(** [stmt.order_by(...)]: rows ordered by the key, ties in scan order. *)
Definition order_by (le : Note -> Note -> bool) (l : list Note) : list Note :=
  fold_right (insert_by le) [] l.

(** A WHERE clause on a row: a truth value, or the error raised while the
    engine evaluates it. *)
Definition clause : Type := Note -> result bool.

(** A test that cannot fail. *)
Definition test (b : bool) : result bool := Ok b.

(** [a AND b], [a OR b]: the right operand is evaluated only where the left
    one does not decide. *)
Definition and_then (a b : result bool) : result bool :=
  match a with
  | Ok true => b
  | other => other
  end.

Definition or_else (a b : result bool) : result bool :=
  match a with
  | Ok false => b
  | other => other
  end.

Definition pattern_too_complex : exn :=
  OperationalError "LIKE or GLOB pattern too complex".

(** [column.like(pattern)] on one row. *)
Definition like_op (pattern text : string) : result bool :=
  if Sql.too_complex pattern then Raise pattern_too_complex
  else Ok (Sql.like pattern text).

(** The scan: rows in rowid order, each kept if the clause holds; the first
    error ends it. *)
Fixpoint select_rows (where_ : clause) (t : list Note) : result (list Note) :=
  match t with
  | [] => Ok []
  | r :: t' =>
      match where_ r with
      | Raise e => Raise e
      | Ok b =>
          match select_rows where_ t' with
          | Raise e => Raise e
          | Ok l => Ok (if b then r :: l else l)
          end
      end
  end.

(** [s.exec(select(Note).where(...))] *)
Definition Session_exec (where_ : clause) : M (list Note) :=
  fun w => (select_rows where_ (table w), w).

(** ** src/services.py: the service functions *)

Inductive identifier : Type :=
| Int (z : Z)
| Str (s : string).

Definition isinstance_int (i : identifier) : bool :=
  match i with Int _ => true | Str _ => false end.

Definition str (i : identifier) : string :=
  match i with Int z => PyStr.str_of_int z | Str s => s end.

Definition int (i : identifier) : Z :=
  match i with Int z => z | Str s => PyStr.int_of_str s end.

(** The object built by [Note(title=title, content=content)]: each of the
    two timestamp defaults calls [datetime.now(UTC)], [created_at] first. *)
Definition Note_new (title_ content_ : string) : M Note :=
  c <- now ;;
  u <- now ;;
  ret (mkNote None title_ content_ EmptyString false false c u).

Definition create_note (title_ content_ : string) (tags_ : option (list string))
  : M Note :=
  let tags_list := _normal_tags tags_ in
  session_scope (
    note <- Note_new title_ content_ ;;
    let note := set_tags (Some tags_list) note in
    note <- Session_insert note ;;
    note <- Session_refresh note ;;
    ret note).

(** The three tests of [list_notes] on a row, as the truth values they have
    when the engine evaluates them: [Note.archived == False], the LIKE of
    the tag filter, the two LIKEs of the search. *)
Definition where_archived (include_archived : bool) (n : Note) : bool :=
  if negb include_archived then negb (archived n) else true.

Definition where_tag (tag : option string) (n : Note) : bool :=
  match tag with
  | Some t =>
      if PyStr.truthy t then
        let t := PyStr.lower (PyStr.strip t) in
        Sql.like ("%" ++ t ++ "%") (tags_csv n)
      else true
  | None => true
  end.

Definition where_search (search : option string) (n : Note) : bool :=
  match search with
  | Some q =>
      if PyStr.truthy q then
        let like_ := "%" ++ q ++ "%" in
        Sql.like like_ (title n) || Sql.like like_ (content n)
      else true
  | None => true
  end.

Definition sort_key (sort : string) (a b : Note) : bool :=
  if String.eqb sort "created" then Z.leb (created_at b) (created_at a)
  else if String.eqb sort "title" then String.leb (title a) (title b)
  else Z.leb (updated_at b) (updated_at a).

(** The same three tests as the engine evaluates them, in the order of the
    statement: the LIKE of the tag filter runs on the rows the archived
    test lets through, the LIKEs of the search on the rows the tag filter
    lets through, the title before the content. *)
Definition tag_clause (tag : option string) (n : Note) : result bool :=
  match tag with
  | Some t =>
      if PyStr.truthy t then
        let t := PyStr.lower (PyStr.strip t) in
        like_op ("%" ++ t ++ "%") (tags_csv n)
      else test true
  | None => test true
  end.

Definition search_clause (search : option string) (n : Note) : result bool :=
  match search with
  | Some q =>
      if PyStr.truthy q then
        let like_ := "%" ++ q ++ "%" in
        or_else (like_op like_ (title n)) (like_op like_ (content n))
      else test true
  | None => test true
  end.

Definition list_clause (tag search : option string) (include_archived : bool)
  : clause :=
  fun n =>
    and_then (test (where_archived include_archived n))
      (and_then (tag_clause tag n) (search_clause search n)).

Definition list_notes (tag search : option string) (include_archived : bool)
  (sort : string) : M (list Note) :=
  session_scope (
    l <- Session_exec (list_clause tag search include_archived) ;;
    ret (order_by (sort_key sort) l)).

(** [get_note]: a lookup by id for an [int] or a string of digits, returned
    when it finds a row; otherwise the first row whose title is
    [str(identifier)]. *)
Definition get_note (i : identifier) : M (option Note) :=
  session_scope (
    obj <- (if isinstance_int i || PyStr.isdigit (str i)
            then Session_get (int i)
            else ret None) ;;
    match obj with
    | Some o => ret (Some o)
    | None =>
        l <- Session_exec (fun n => test (String.eqb (title n) (str i))) ;;
        ret (hd_error l)
    end).

(** The exception raised for a missing target:
    [ValueError(f"Note '{identifier}' not found")]. *)
Definition NotFoundError (i : identifier) : exn :=
  ValueError ("Note '" ++ str i ++ "' not found").

Definition assign {A : Type} (v : option A) (f : A -> Note -> Note) (n : Note)
  : Note :=
  match v with
  | Some a => f a n
  | None => n
  end.

Definition edit_note (i : identifier) (title_ content_ : option string)
  (tags_ : option (list string)) (archived_ pinned_ : option bool) : M Note :=
  let tags_list :=
    match tags_ with None => None | Some l => Some (_normal_tags (Some l)) end in
  session_scope (
    note <- get_note i ;;
    match note with
    | None => raise (NotFoundError i)
    | Some note =>
        note <- Session_merge note ;;
        let note := assign title_ with_title note in
        let note := assign content_ with_content note in
        let note := assign tags_list (fun l => set_tags (Some l)) note in
        let note := assign archived_ with_archived note in
        let note := assign pinned_ with_pinned note in
        t <- now ;;
        let note := with_updated_at t note in
        Session_update note ;;;
        note <- Session_refresh note ;;
        ret note
    end).

Definition delete_note (i : identifier) (hard : bool) : M unit :=
  session_scope (
    note <- get_note i ;;
    match note with
    | None => ret tt
    | Some note =>
        note <- Session_merge note ;;
        if hard then Session_delete note
        else
          let note := with_archived true note in
          t <- now ;;
          let note := with_updated_at t note in
          Session_update note
    end).

Definition pin_note (i : identifier) (value : bool) : M Note :=
  session_scope (
    note <- get_note i ;;
    match note with
    | None => raise (NotFoundError i)
    | Some note =>
        note <- Session_merge note ;;
        let note := with_pinned value note in
        t <- now ;;
        let note := with_updated_at t note in
        Session_update note ;;;
        note <- Session_refresh note ;;
        ret note
    end).

Definition archive_note (i : identifier) (value : bool) : M Note :=
  session_scope (
    note <- get_note i ;;
    match note with
    | None => raise (NotFoundError i)
    | Some note =>
        note <- Session_merge note ;;
        let note := with_archived value note in
        t <- now ;;
        let note := with_updated_at t note in
        Session_update note ;;;
        note <- Session_refresh note ;;
        ret note
    end).

Definition restore_note (i : identifier) : M Note := archive_note i false.

Definition purge_note (i : identifier) : M unit := delete_note i true.

(** The WHERE clause of [backlinks_for].  The engine reaches the rows
    through the index on [archived], so the LIKE runs only on the rows the
    archived test lets through. *)
Definition backlink_clause (title_ : string) (include_archived : bool)
  : clause :=
  fun n =>
    and_then (test (where_archived include_archived n))
             (like_op ("%[[" ++ title_ ++ "]]%") (content n)).

Definition backlinks_for (i : identifier) (include_archived : bool)
  : M (list Note) :=
  target <- get_note i ;;
  match target with
  | None => ret []
  | Some target =>
      let title_ := title target in
      session_scope (
        Session_exec (backlink_clause title_ include_archived))
  end.

(** ** src/cli.py: the commands *)

Module Cli.

(** [s.split(",")] *)
Definition split (s : string) : list string := split_comma EmptyString s.

(** [tags or] the empty string, for an option that may be absent. *)
Definition or_empty (s : option string) : string :=
  match s with
  | Some t => t
  | None => EmptyString
  end.

(** [f"{n.id}"] *)
Definition str_id (n : Note) : string :=
  match id n with
  | Some k => PyStr.str_of_int k
  | None => "None"
  end.

(** Each command returns the text it hands to [console.print]. *)
Definition add (title_ content_ : string) (tags_ : option string) : M string :=
  n <- create_note title_ content_ (Some (split (or_empty tags_))) ;;
  ret ("[green]Created[/] #" ++ str_id n ++ ": " ++ title n).

Definition edit (identifier_ : string) (title_ content_ tags_ : option string)
  (pin_ archive_ : option bool) : M string :=
  n <- edit_note (Str identifier_) title_ content_
         (match tags_ with None => None | Some t => Some (split t) end)
         archive_ pin_ ;;
  ret ("[green]Updated[/] #" ++ str_id n ++ ": " ++ title n).

Definition delete (identifier_ : string) (hard : bool) : M string :=
  delete_note (Str identifier_) hard ;;;
  ret "[yellow]Deleted[/] (soft by default)".

Definition pin (identifier_ : string) : M string :=
  n <- pin_note (Str identifier_) true ;;
  ret ("[green]Pinned[/] #" ++ str_id n ++ ": " ++ title n).

Definition unpin (identifier_ : string) : M string :=
  n <- pin_note (Str identifier_) false ;;
  ret ("[yellow]Unpinned[/] #" ++ str_id n ++ ": " ++ title n).

Definition archive (identifier_ : string) : M string :=
  n <- archive_note (Str identifier_) true ;;
  ret ("[yellow]Archived[/] #" ++ str_id n ++ ": " ++ title n).

Definition unarchive (identifier_ : string) : M string :=
  n <- archive_note (Str identifier_) false ;;
  ret ("[green]Unarchived[/] #" ++ str_id n ++ ": " ++ title n).

Definition restore (identifier_ : string) : M string :=
  n <- restore_note (Str identifier_) ;;
  ret ("[green]Restored[/] #" ++ str_id n ++ ": " ++ title n).

Definition purge (identifier_ : string) : M string :=
  purge_note (Str identifier_) ;;;
  ret ("[red]Purged[/]: " ++ identifier_).

(** One element of the JSON array that [export] writes and [import_] reads.
    The two timestamps stand for their ISO-8601 texts; [content] and [tags]
    are optional because [import_] reads them with [item.get]. *)
Record entry := mkEntry {
  e_id : option Z;
  e_title : string;
  e_content : option string;
  e_tags : option (list string);
  e_pinned : bool;
  e_archived : bool;
  e_created_at : datetime;
  e_updated_at : datetime
}.

(** The dictionary [export] builds for a note. *)
Definition entry_of (n : Note) : entry :=
  mkEntry (id n) (title n) (Some (content n)) (Some (tags n))
          (pinned n) (archived n) (created_at n) (updated_at n).

(** [export]: the payload handed to [json.dumps]. *)
Definition export : M (list entry) :=
  notes <- list_notes None None true "updated" ;;
  ret (map entry_of notes).

(** The loop of [import_] over the array read by [json.loads]. *)
Fixpoint import_items (data : list entry) : M unit :=
  match data with
  | [] => ret tt
  | item :: rest =>
      create_note (e_title item)
        (match e_content item with Some c => c | None => EmptyString end)
        (Some (match e_tags item with Some l => l | None => [] end)) ;;;
      import_items rest
  end.

Definition import_ (data : list entry) : M string :=
  import_items data ;;;
  ret ("[green]Imported[/] "
       ++ PyStr.str_of_int (Z.of_nat (List.length data)) ++ " notes").

End Cli.

(** ** src/app.py: the handlers *)

Module Api.

Record NoteCreate := mkNoteCreate {
  create_title : string;
  create_content : string;
  create_tags : list string
}.


Record NoteOut := mkNoteOut {
  out_id : Z;
  out_title : string;
  out_content : string;
  out_tags : list string;
  out_pinned : bool;
  out_archived : bool;
  out_created_at : datetime;
  out_updated_at : datetime
}.

(** What a handler can end with besides a value: an [HTTPException] it
    raises itself, the validation error of [NoteOut] for a note without an
    id, or an exception of the service that it does not catch. *)
Inductive failure : Type :=
| HTTPException (status_code : Z) (detail : string)
| ValidationError
| Uncaught (e : exn).

Definition H (A : Type) : Type := world -> (A + failure) * world.

(** Calling a service function without a [try]. *)
Definition call {A : Type} (c : M A) : H A :=
  fun w =>
    match c w with
    | (Ok a, w') => (inl a, w')
    | (Raise e, w') => (inr (Uncaught e), w')
    end.

Definition hret {A : Type} (a : A) : H A := fun w => (inl a, w).

Definition hfail {A : Type} (f : failure) : H A := fun w => (inr f, w).

Definition hbind {A B : Type} (c : H A) (k : A -> H B) : H B :=
  fun w =>
    match c w with
    | (inl a, w') => k a w'
    | (inr f, w') => (inr f, w')
    end.

(** [_to_out]: [NoteOut] requires an integer id. *)
Definition _to_out (n : Note) : NoteOut + failure :=
  match id n with
  | Some k =>
      inl (mkNoteOut k (title n) (content n) (tags n) (pinned n) (archived n)
             (created_at n) (updated_at n))
  | None => inr ValidationError
  end.

Definition respond (n : Note) : H NoteOut :=
  fun w => (_to_out n, w).

Fixpoint respond_all (l : list Note) : H (list NoteOut) :=
  match l with
  | [] => hret []
  | n :: l' =>
      hbind (respond n) (fun o =>
      hbind (respond_all l') (fun os => hret (o :: os)))
  end.

Definition api_list_notes (tag search : option string)
  (include_archived : bool) (sort : string) : H (list NoteOut) :=
  hbind (call (list_notes tag search include_archived sort)) respond_all.

(** [api_create_note]: a [ValueError] of the service becomes a 400. *)
Definition api_create_note (payload : NoteCreate) : H NoteOut :=
  fun w =>
    match create_note (create_title payload) (create_content payload)
            (Some (create_tags payload)) w with
    | (Ok n, w') => respond n w'
    | (Raise (ValueError msg), w') => (inr (HTTPException 400 msg), w')
    | (Raise e, w') => (inr (Uncaught e), w')
    end.

Definition api_get_note (identifier_ : string) : H NoteOut :=
  hbind (call (get_note (Str identifier_))) (fun n =>
    match n with
    | None => hfail (HTTPException 404 "Not found")
    | Some n => respond n
    end).








End Api.

(** ** Vocabulary of the statements *)

(** A string that does not start with white space. *)
Definition headed (s : string) : Prop :=
  match s with
  | EmptyString => True
  | String c _ => PyStr.isspace c = false
  end.

(** The order of [sorted] on strings, by code point. *)
Definition str_le (a b : string) : Prop := String.leb a b = true.
Definition str_lt (a b : string) : Prop := String.ltb a b = true.

(** A normalized tag: non-empty, trimmed and lower-cased. *)
Definition normal_tag (t : string) : Prop :=
  t <> EmptyString /\ PyStr.strip t = t /\ PyStr.lower t = t.

(** The test [get_note] makes before it looks an identifier up by id. *)
Definition numeric (i : identifier) : bool :=
  isinstance_int i || PyStr.isdigit (str i).

(** The row stored under the id [k].  Ids are SQLite rowids, signed 64-bit
    integers: no row is stored under a key outside that range, which the
    driver cannot even bind. *)
Definition by_id (k : Z) (t : list Note) : option Note :=
  if int64 k then find (has_id k) t else None.

(** The first row, in scan order, whose title is exactly [s]. *)
Definition by_title (s : string) (t : list Note) : option Note :=
  hd_error (filter (fun n => String.eqb (title n) s) t).

(** What [get_note] gives on a table. *)
Definition resolve (i : identifier) (t : list Note) : result (option Note) :=
  if numeric i
  then match find (has_id (int i)) t with
       | Some o => Ok (Some o)
       | None =>
           if int64 (int i) then Ok (by_title (str i) t)
           else Raise int_too_large
       end
  else Ok (by_title (str i) t).

(** The table after the row of [n] has been rewritten. *)
Definition rewritten (n : Note) (t : list Note) : list Note :=
  map (fun r => if same_row n r then n else r) t.

(** The table after the row of [n] has been removed. *)
Definition removed (n : Note) (t : list Note) : list Note :=
  filter (fun r => negb (same_row n r)) t.

Definition with_table (t : list Note) (w : world) : world :=
  mkWorld t (clock w) (ticks w).

(** The world after one more reading of the clock. *)
Definition ticked (w : world) : world :=
  mkWorld (table w) (clock w) (S (ticks w)).

(** A string without a comma. *)
Definition no_comma (s : string) : bool :=
  PyStr.all_chars (fun c => negb (Ascii.eqb c ",")) s.

(** A table as the storage engine keeps it: every row has an id, and no two
    rows share one. *)
Definition wf_table (t : list Note) : Prop :=
  Forall (fun r => id r <> None) t /\ NoDup (map id t).

(** The rows [list_notes] selects. *)
Definition listed (tag search : option string) (include_archived : bool)
  (n : Note) : bool :=
  where_archived include_archived n && where_tag tag n && where_search search n.

(** The LIKE pattern [list_notes] makes of a tag filter and of a search;
    none when the filter is absent or empty. *)
Definition tag_pattern (tag : option string) : option string :=
  match tag with
  | Some t =>
      if PyStr.truthy t
      then Some ("%" ++ PyStr.lower (PyStr.strip t) ++ "%")%string
      else None
  | None => None
  end.

Definition search_pattern (search : option string) : option string :=
  match search with
  | Some q => if PyStr.truthy q then Some ("%" ++ q ++ "%")%string else None
  | None => None
  end.

(** A pattern, if any, that the engine accepts. *)
Definition fits (pattern : option string) : bool :=
  match pattern with
  | Some p => negb (Sql.too_complex p)
  | None => true
  end.

(** A string without a closing bracket, and one without an opening one. *)
Definition no_rbracket (s : string) : bool :=
  PyStr.all_chars (fun c => negb (BACKLINK_RE.is_rbracket c)) s.

Definition no_lbracket (s : string) : bool :=
  PyStr.all_chars (fun c => negb (BACKLINK_RE.is_lbracket c)) s.

(** What [import_] makes of one exported note. *)
Definition imported_from (n a : Note) : Prop :=
  title a = title n /\ content a = content n
  /\ tags_csv a = PyStr.join "," (_normal_tags (Some (tags n)))
  /\ pinned a = false /\ archived a = false
  /\ (forall l, Forall (fun u => no_comma u = true) l ->
        tags_csv n = PyStr.join "," (_normal_tags (Some l)) ->
        tags_csv a = tags_csv n).

(** A clock that never goes back. *)
Definition monotone_clock (w : world) : Prop :=
  forall a b : nat, (a <= b)%nat -> clock w a <= clock w b.

(** Every row was created no later than it was last updated, and no later
    than the next reading of the clock. *)
Definition timestamps_ok (w : world) : Prop :=
  Forall (fun r => created_at r <= updated_at r
                   /\ created_at r <= clock w (ticks w)) (table w).

(** ** Scenarios *)

(** An empty table and a clock that advances by one at every reading. *)
Definition empty_world : world := mkWorld [] (fun n => 1000 + Z.of_nat n) 0.

Definition value {A : Type} (c : M A) (w : world) : result A := fst (c w).
Definition after {A : Type} (c : M A) (w : world) : world := snd (c w).

(** One note, whose title is a string of digits that is not its id. *)
Definition world_titled_42 : world :=
  after (create_note "42" EmptyString None) empty_world.

(** One note, as the repository's edit test creates it. *)
Definition world_draft : world :=
  after (create_note "draft" "hello" (Some ["temp"])) empty_world.

Definition note_draft : Note :=
  mkNote (Some 1) "draft" "hello" "temp" false false 1000 1001.

(** Two notes: the first has id 1, the second is titled 1. *)
Definition world_x_1 : world :=
  after (create_note "1" EmptyString None)
        (after (create_note "x" EmptyString None) empty_world).

(** One note tagged work. *)
Definition world_work : world :=
  after (create_note "alpha" "first body" (Some ["work"])) empty_world.

(** The backlink scenario of the repository's test: A links to B. *)
Definition world_A_B : world :=
  after (create_note "B" "world" (Some ["beta"]))
        (after (create_note "A" "hello [[B]]" (Some ["alpha"])) empty_world).

(** A note that links to abc, and a note titled a_c. *)
Definition world_abc : world :=
  after (create_note "a_c" EmptyString None)
        (after (create_note "A" "see [[abc]]" None) empty_world).

(** A note that links to b, and a note titled B. *)
Definition world_b : world :=
  after (create_note "B" EmptyString None)
        (after (create_note "A" "see [[b]]" None) empty_world).

(** The three notes of the repository's list test. *)
Definition world_alpha_beta_gamma : world :=
  after (create_note "gamma" "third body" (Some ["work"]))
    (after (create_note "beta" "second body with keyword" (Some ["personal"]))
       (after (create_note "alpha" "first body" (Some ["work"; "ideas"]))
          empty_world)).

Definition titles (r : result (list Note)) : list string :=
  match r with
  | Ok l => map title l
  | Raise _ => []
  end.

(** A note titled a_c, and a note that links to it. *)
Definition world_a_c_linked : world :=
  after (create_note "L" "see [[a_c]] here" None)
        (after (create_note "a_c" EmptyString None) empty_world).

(** A filter of 49999 letters: between two [%] it makes a pattern of 50001
    bytes. *)
Definition long_filter : string :=
  Pos.iter (String "a") EmptyString 49999%positive.

(** * Properties *)

(** ** Characters and strings *)

Section StringFacts.

Lemma lower_char_idem (c : ascii) :
  PyStr.lower_char (PyStr.lower_char c) = PyStr.lower_char c.
Proof. destruct c as [[] [] [] [] [] [] [] []]; vm_compute; reflexivity. Qed.

Lemma isspace_lower_char (c : ascii) :
  PyStr.isspace (PyStr.lower_char c) = PyStr.isspace c.
Proof. destruct c as [[] [] [] [] [] [] [] []]; vm_compute; reflexivity. Qed.

Lemma lower_idem (s : string) : PyStr.lower (PyStr.lower s) = PyStr.lower s.
Proof.
  induction s as [|c s IH]; simpl; [reflexivity|].
  now rewrite lower_char_idem, IH.
Qed.

Lemma lower_lstrip (s : string) :
  PyStr.lower (PyStr.lstrip s) = PyStr.lstrip (PyStr.lower s).
Proof.
  induction s as [|c s IH]; simpl; [reflexivity|].
  rewrite isspace_lower_char. destruct (PyStr.isspace c); [exact IH|reflexivity].
Qed.

Lemma lower_rstrip (s : string) :
  PyStr.lower (PyStr.rstrip s) = PyStr.rstrip (PyStr.lower s).
Proof.
  induction s as [|c s IH]; simpl; [reflexivity|].
  rewrite <- IH, isspace_lower_char.
  destruct (PyStr.rstrip s); simpl; [destruct (PyStr.isspace c)|]; reflexivity.
Qed.

Lemma lower_strip (s : string) :
  PyStr.lower (PyStr.strip s) = PyStr.strip (PyStr.lower s).
Proof. unfold PyStr.strip. now rewrite lower_rstrip, lower_lstrip. Qed.

Lemma rstrip_idem (s : string) : PyStr.rstrip (PyStr.rstrip s) = PyStr.rstrip s.
Proof.
  induction s as [|c s IH]; simpl; [reflexivity|].
  destruct (PyStr.rstrip s) as [|d r] eqn:E.
  - destruct (PyStr.isspace c) eqn:Ec; simpl; [reflexivity|now rewrite Ec].
  - change (PyStr.rstrip (String c (String d r)))
      with (match PyStr.rstrip (String d r) with
            | EmptyString =>
                if PyStr.isspace c then EmptyString else String c EmptyString
            | x => String c x
            end).
    now rewrite IH.
Qed.

Lemma lstrip_headed (s : string) : headed (PyStr.lstrip s).
Proof.
  induction s as [|c s IH]; simpl; [exact I|].
  destruct (PyStr.isspace c) eqn:E; [exact IH|exact E].
Qed.

Lemma rstrip_headed (s : string) : headed s -> headed (PyStr.rstrip s).
Proof.
  destruct s as [|c s]; simpl; [trivial|]. intros H.
  destruct (PyStr.rstrip s); [rewrite H|]; exact H.
Qed.

Lemma lstrip_of_headed (s : string) : headed s -> PyStr.lstrip s = s.
Proof. destruct s as [|c s]; simpl; [trivial|]. now intros ->. Qed.

Lemma strip_idem (s : string) : PyStr.strip (PyStr.strip s) = PyStr.strip s.
Proof.
  unfold PyStr.strip.
  rewrite (lstrip_of_headed (PyStr.rstrip (PyStr.lstrip s))).
  - apply rstrip_idem.
  - apply rstrip_headed, lstrip_headed.
Qed.

Lemma truthy_true (s : string) : PyStr.truthy s = true <-> s <> EmptyString.
Proof. destruct s; simpl; split; congruence. Qed.

End StringFacts.

(** ** [sorted] and [set] *)

Section SortedFacts.

Lemma leb_not_true (a b : string) : String.leb a b = false -> str_le b a.
Proof.
  intros H. destruct (String.leb_total a b) as [E|E]; [congruence|exact E].
Qed.

Lemma insert_sorted_In (x y : string) (l : list string) :
  In y (PyStr.insert_sorted x l) <-> y = x \/ In y l.
Proof.
  induction l as [|z l IH]; simpl.
  - intuition congruence.
  - destruct (String.leb x z); simpl; rewrite ?IH; intuition congruence.
Qed.

Lemma sorted_In (y : string) (l : list string) :
  In y (PyStr.sorted l) <-> In y l.
Proof.
  induction l as [|x l IH]; simpl; [tauto|].
  rewrite insert_sorted_In, IH. intuition congruence.
Qed.

Lemma insert_sorted_NoDup (x : string) (l : list string) :
  NoDup l -> ~ In x l -> NoDup (PyStr.insert_sorted x l).
Proof.
  induction l as [|z l IH]; simpl; intros Hl Hx.
  - constructor; [tauto|constructor].
  - destruct (String.leb x z).
    + constructor; [simpl; tauto|exact Hl].
    + inversion Hl as [|? ? Hz Hl']; subst. constructor.
      * rewrite insert_sorted_In. intros [->|H]; tauto.
      * apply IH; tauto.
Qed.

Lemma sorted_NoDup (l : list string) : NoDup l -> NoDup (PyStr.sorted l).
Proof.
  induction 1 as [|x l Hx Hl IH]; simpl; [constructor|].
  apply insert_sorted_NoDup; [exact IH|now rewrite sorted_In].
Qed.

Lemma insert_sorted_Sorted (x : string) (l : list string) :
  Sorted str_le l -> Sorted str_le (PyStr.insert_sorted x l).
Proof.
  induction l as [|z l IH]; simpl; intros Hl.
  - repeat constructor.
  - destruct (String.leb x z) eqn:E.
    + constructor; [exact Hl|constructor; exact E].
    + inversion Hl as [|? ? Hl' Hd]; subst. constructor; [now apply IH|].
      destruct l as [|u l]; simpl.
      * constructor. now apply leb_not_true.
      * destruct (String.leb x u); constructor.
        -- now apply leb_not_true.
        -- now inversion Hd.
Qed.

Lemma sorted_Sorted (l : list string) : Sorted str_le (PyStr.sorted l).
Proof.
  induction l as [|x l IH]; simpl; [constructor|].
  now apply insert_sorted_Sorted.
Qed.

Lemma sorted_fixed (l : list string) : Sorted str_le l -> PyStr.sorted l = l.
Proof.
  induction 1 as [|x l Hl IH Hd]; simpl; [reflexivity|].
  rewrite IH. destruct Hd as [|z l Hz]; simpl; [reflexivity|].
  unfold str_le in Hz. now rewrite Hz.
Qed.

Lemma le_neq_lt (a b : string) : str_le a b -> a <> b -> str_lt a b.
Proof.
  unfold str_le, str_lt, String.leb, String.ltb. intros H N.
  destruct (String.compare a b) eqn:E; try congruence.
  now apply String.compare_eq_iff in E.
Qed.

Lemma Sorted_strict (l : list string) :
  Sorted str_le l -> NoDup l -> Sorted str_lt l.
Proof.
  induction 1 as [|x l Hl IH Hd]; intros Hn; [constructor|].
  inversion Hn as [|? ? Hx Hn']; subst. constructor; [now apply IH|].
  destruct Hd as [|z l Hz]; constructor.
  apply le_neq_lt; [exact Hz|]. intros ->. apply Hx. now left.
Qed.

Lemma str_lt_trans (a b c : string) : str_lt a b -> str_lt b c -> str_lt a c.
Proof.
  unfold str_lt, String.ltb.
  revert b c. induction a as [|x a IH]; intros [|y b] [|z c]; simpl;
    try congruence.
  destruct (Ascii.compare x y) eqn:Exy; try congruence;
    destruct (Ascii.compare y z) eqn:Eyz; try congruence.
  - apply Ascii.compare_eq_iff in Exy, Eyz. subst.
    unfold Ascii.compare. rewrite N.compare_refl. apply IH.
  - apply Ascii.compare_eq_iff in Exy. subst. now rewrite Eyz.
  - apply Ascii.compare_eq_iff in Eyz. subst. now rewrite Exy.
  - unfold Ascii.compare in *. rewrite N.compare_lt_iff in Exy, Eyz.
    assert (H : (N_of_ascii x ?= N_of_ascii z)%N = Lt)
      by (apply N.compare_lt_iff; lia).
    now rewrite H.
Qed.

Lemma Sorted_strongly (l : list string) :
  Sorted str_lt l -> StronglySorted str_lt l.
Proof.
  apply Sorted_StronglySorted. intros a b c. apply str_lt_trans.
Qed.

End SortedFacts.

(** ** Tag normalization *)

Section NormalTags.

Lemma normal_tags_In (l : list string) (t : string) :
  In t (_normal_tags (Some l)) ->
  exists u, In u l /\ PyStr.strip u <> EmptyString
            /\ t = PyStr.lower (PyStr.strip u).
Proof.
  destruct l as [|a l]; [intros []|].
  unfold _normal_tags. rewrite sorted_In. unfold PyStr.set_of.
  rewrite nodup_In, in_map_iff. intros (u & <- & Hu).
  apply filter_In in Hu as (Hu & Ht). apply andb_true_iff in Ht as (_ & Ht).
  exists u. repeat split; [exact Hu|now apply truthy_true].
Qed.

Lemma lower_nonempty (s : string) :
  s <> EmptyString -> PyStr.lower s <> EmptyString.
Proof. destruct s; simpl; congruence. Qed.

Lemma normal_tags_normal (tags_ : option (list string)) (t : string) :
  In t (_normal_tags tags_) -> normal_tag t.
Proof.
  destruct tags_ as [l|]; [|intros []].
  intros H. apply normal_tags_In in H as (u & _ & Hne & ->).
  repeat split.
  - now apply lower_nonempty.
  - now rewrite <- lower_strip, strip_idem.
  - apply lower_idem.
Qed.

Lemma normal_tags_NoDup (tags_ : option (list string)) :
  NoDup (_normal_tags tags_).
Proof.
  destruct tags_ as [[|a l]|]; try constructor.
  apply sorted_NoDup, NoDup_nodup.
Qed.

Lemma normal_tags_Sorted (tags_ : option (list string)) :
  Sorted str_le (_normal_tags tags_).
Proof.
  destruct tags_ as [[|a l]|]; try constructor. apply sorted_Sorted.
Qed.

Lemma filter_all {A : Type} (p : A -> bool) (l : list A) :
  (forall x, In x l -> p x = true) -> filter p l = l.
Proof.
  induction l as [|x l IH]; simpl; intros H; [reflexivity|].
  rewrite (H x (or_introl eq_refl)), IH; [reflexivity|]. intros; apply H; now right.
Qed.

Lemma map_fixed {A : Type} (f : A -> A) (l : list A) :
  (forall x, In x l -> f x = x) -> map f l = l.
Proof.
  induction l as [|x l IH]; simpl; intros H; [reflexivity|].
  rewrite (H x (or_introl eq_refl)), IH; [reflexivity|]. intros; apply H; now right.
Qed.

(** A list of distinct normalized tags in sorted order is left as it is. *)
Lemma normal_tags_fixed (r : list string) :
  (forall t, In t r -> normal_tag t) -> NoDup r -> Sorted str_le r ->
  _normal_tags (Some r) = r.
Proof.
  intros Hn Hd Hs. destruct r as [|a r]; [reflexivity|].
  unfold _normal_tags.
  rewrite filter_all.
  - rewrite map_fixed.
    + unfold PyStr.set_of. rewrite nodup_fixed_point by exact Hd.
      now apply sorted_fixed.
    + intros x Hx. destruct (Hn x Hx) as (_ & -> & ->). reflexivity.
  - intros x Hx. destruct (Hn x Hx) as (Hne & Hst & _).
    rewrite Hst. apply truthy_true in Hne. now rewrite Hne.
Qed.

(** C5. Tag normalization is idempotent, and its result has no duplicates,
    no empty or white-space-only entry, holds only trimmed lower-cased
    strings, and is in strictly increasing order. *)
Theorem normal_tags_idempotent_canonical (tags_ : option (list string)) :
  _normal_tags (Some (_normal_tags tags_)) = _normal_tags tags_
  /\ NoDup (_normal_tags tags_)
  /\ (forall t, In t (_normal_tags tags_) ->
        PyStr.strip t <> EmptyString /\ PyStr.strip t = t /\ PyStr.lower t = t)
  /\ StronglySorted str_lt (_normal_tags tags_).
Proof.
  pose proof (normal_tags_normal tags_) as Hn.
  pose proof (normal_tags_NoDup tags_) as Hd.
  pose proof (normal_tags_Sorted tags_) as Hs.
  repeat split.
  - now apply normal_tags_fixed.
  - exact Hd.
  - destruct (Hn t H) as (Hne & Hst & _). now rewrite Hst.
  - now destruct (Hn t H) as (_ & Hst & _).
  - now destruct (Hn t H) as (_ & _ & Hlo).
  - now apply Sorted_strongly, Sorted_strict.
Qed.

End NormalTags.

(** Unfolding the monad: the primitives are opened and the world is
    threaded through by computation. *)
Ltac run_monad :=
  unfold session_scope, Note_new, now, Session_insert, Session_refresh,
    Session_update, Session_delete, Session_merge, Session_get, Session_exec,
    rows, store, raise, ret, bind;
  cbn [table clock ticks fst snd].

(** ** Identifier resolution *)

Section Resolution.

Lemma world_eta (w : world) : mkWorld (table w) (clock w) (ticks w) = w.
Proof. now destruct w. Qed.

(** [get_note] reads the table and leaves the world as it is. *)
Lemma select_rows_test (p : Note -> bool) (t : list Note) :
  select_rows (fun n => test (p n)) t = Ok (filter p t).
Proof.
  induction t as [|r t IH]; simpl; [reflexivity|].
  rewrite IH. reflexivity.
Qed.

Lemma get_note_spec (i : identifier) (w : world) :
  get_note i w = (resolve i (table w), w).
Proof.
  unfold resolve, get_note, numeric, by_title.
  destruct (isinstance_int i || PyStr.isdigit (str i));
    unfold session_scope, Session_get, Session_exec, rows, ret, raise, bind;
    cbn [table].
  - destruct (find (has_id (int i)) (table w)); [reflexivity|].
    destruct (int64 (int i)).
    + now rewrite select_rows_test.
    + cbn [table clock ticks]. now rewrite world_eta.
  - now rewrite select_rows_test.
Qed.

Lemma by_title_None (s : string) (t : list Note) :
  by_title s t = None <-> (forall n, In n t -> title n <> s).
Proof.
  unfold by_title. induction t as [|r t IH]; simpl.
  - split; [intros _ n []|reflexivity].
  - destruct (String.eqb_spec (title r) s) as [E|E]; simpl.
    + split; [discriminate|]. intros H. now elim (H r (or_introl eq_refl)).
    + rewrite IH. split.
      * intros H n [<-|Hn]; [exact E|now apply H].
      * intros H n Hn. apply H. now right.
Qed.

Lemma by_title_Some (s : string) (t : list Note) (n : Note) :
  by_title s t = Some n -> In n t /\ title n = s.
Proof.
  unfold by_title. intros H.
  assert (Hin : In n (filter (fun n => String.eqb (title n) s) t)).
  { destruct (filter _ t); [discriminate|]. injection H as ->. now left. }
  apply filter_In in Hin as (Hin & E). split; [exact Hin|].
  now apply String.eqb_eq.
Qed.

Lemma by_id_find (k : Z) (t : list Note) (n : Note) :
  by_id k t = Some n -> int64 k = true /\ find (has_id k) t = Some n.
Proof. unfold by_id. destruct (int64 k); [auto|discriminate]. Qed.

Lemma by_id_in_range (k : Z) (t : list Note) :
  int64 k = true -> by_id k t = find (has_id k) t.
Proof. unfold by_id. now intros ->. Qed.

Lemma find_has_id (k : Z) (t : list Note) (n : Note) :
  find (has_id k) t = Some n -> In n t /\ id n = Some k.
Proof.
  intros H. apply find_some in H as (Hin & E). split; [exact Hin|].
  unfold has_id in E. destruct (id n) as [j|]; [|discriminate].
  apply Z.eqb_eq in E. now subst.
Qed.

Lemma by_id_Some (k : Z) (t : list Note) (n : Note) :
  by_id k t = Some n -> In n t /\ id n = Some k.
Proof. intros H. apply by_id_find in H as (_ & H). now apply find_has_id. Qed.




End Resolution.

(** ** Operations on a missing target *)

Section MissingTarget.

Lemma resolve_of_value (i : identifier) (w : world) (o : option Note) :
  value (get_note i) w = Ok o -> resolve i (table w) = Ok o.
Proof. unfold value. rewrite get_note_spec. simpl. congruence. Qed.

(** An error raised while the identifier is resolved is the outcome of the
    operation, and the transaction is rolled back. *)
Lemma failed_lookup_runs (w : world) (i : identifier) (e : exn)
  (title_ content_ : option string) (tags_ : option (list string))
  (archived_ pinned_ : option bool) (v hard : bool) :
  resolve i (table w) = Raise e ->
  edit_note i title_ content_ tags_ archived_ pinned_ w = (Raise e, w)
  /\ pin_note i v w = (Raise e, w)
  /\ archive_note i v w = (Raise e, w)
  /\ restore_note i w = (Raise e, w)
  /\ delete_note i hard w = (Raise e, w)
  /\ purge_note i w = (Raise e, w).
Proof.
  intros H.
  unfold restore_note, purge_note, edit_note, pin_note, archive_note,
    delete_note, session_scope, bind, raise, ret.
  rewrite get_note_spec, H. simpl. rewrite world_eta. repeat split.
Qed.

Lemma resolve_out_of_range (i : identifier) (t : list Note) :
  numeric i = true -> int64 (int i) = false ->
  find (has_id (int i)) t = None ->
  resolve i t = Raise int_too_large.
Proof. intros Hn Hk Hid. unfold resolve. now rewrite Hn, Hid, Hk. Qed.

(** C3 (what the code does on a target that matches nothing). When
    [get_note] gives no note, edit, pin, archive and restore raise the
    not-found error and leave the world as it was, and delete and purge
    return normally and leave the world as it was.  For a numeric
    identifier outside the signed 64-bit range that too matches no note,
    [get_note] and all six operations raise [OverflowError] instead: none
    raises the not-found error, and delete and purge do not return. *)
Theorem missing_target_raises_or_noop (w : world) (i : identifier)
  (title_ content_ : option string) (tags_ : option (list string))
  (archived_ pinned_ : option bool) (v hard : bool) :
  (value (get_note i) w = Ok None ->
   edit_note i title_ content_ tags_ archived_ pinned_ w
     = (Raise (NotFoundError i), w)
   /\ pin_note i v w = (Raise (NotFoundError i), w)
   /\ archive_note i v w = (Raise (NotFoundError i), w)
   /\ restore_note i w = (Raise (NotFoundError i), w)
   /\ delete_note i hard w = (Ok tt, w)
   /\ purge_note i w = (Ok tt, w))
  /\ (numeric i = true -> int64 (int i) = false ->
      (forall n, In n (table w) -> id n <> Some (int i) /\ title n <> str i) ->
      get_note i w = (Raise int_too_large, w)
      /\ edit_note i title_ content_ tags_ archived_ pinned_ w
         = (Raise int_too_large, w)
      /\ pin_note i v w = (Raise int_too_large, w)
      /\ archive_note i v w = (Raise int_too_large, w)
      /\ restore_note i w = (Raise int_too_large, w)
      /\ delete_note i hard w = (Raise int_too_large, w)
      /\ purge_note i w = (Raise int_too_large, w)).
Proof.
  split.
  - intros H. apply resolve_of_value in H.
    unfold restore_note, purge_note, edit_note, pin_note, archive_note,
      delete_note, session_scope, bind, raise, ret.
    rewrite get_note_spec, H. simpl. rewrite world_eta. repeat split.
  - intros Hn Hk Hnone.
    assert (Hid : find (has_id (int i)) (table w) = None).
    { destruct (find (has_id (int i)) (table w)) as [r|] eqn:E; [|reflexivity].
      apply find_has_id in E as (Hin & Hr).
      now destruct (Hnone r Hin) as (Hneq & _). }
    pose proof (resolve_out_of_range i (table w) Hn Hk Hid) as Hr.
    split; [now rewrite get_note_spec, Hr|].
    now apply failed_lookup_runs.
Qed.

Lemma missing_target_raises_or_noop_witness :
  (restore_note (Str "nope") world_titled_42
   = (Raise (NotFoundError (Str "nope")), world_titled_42)
   /\ delete_note (Str "nope") false world_titled_42 = (Ok tt, world_titled_42)
   /\ purge_note (Str "nope") world_titled_42 = (Ok tt, world_titled_42))
  /\ (let i := Str "9223372036854775808" in
      get_note i world_titled_42 = (Raise int_too_large, world_titled_42)
      /\ edit_note i (Some "t") None None None None world_titled_42
         = (Raise int_too_large, world_titled_42)
      /\ pin_note i true world_titled_42
         = (Raise int_too_large, world_titled_42)
      /\ archive_note i true world_titled_42
         = (Raise int_too_large, world_titled_42)
      /\ restore_note i world_titled_42
         = (Raise int_too_large, world_titled_42)
      /\ delete_note i false world_titled_42
         = (Raise int_too_large, world_titled_42)
      /\ purge_note i world_titled_42
         = (Raise int_too_large, world_titled_42)).
Proof.
  split.
  - destruct (missing_target_raises_or_noop world_titled_42 (Str "nope")
                (Some "t") None None None None true false) as (H & _).
    destruct H as (_ & _ & _ & Hr & Hd & Hp); [reflexivity|].
    repeat split; assumption.
  - intros i.
    apply (missing_target_raises_or_noop world_titled_42 i
             (Some "t") None None None None true false).
    + reflexivity.
    + reflexivity.
    + intros n [<-|[]]. split; discriminate.
Defined.

End MissingTarget.

(** ** Creation *)

Section Creation.

Lemma max_rowid_bound (t : list Note) (r : Note) (j : Z) :
  In r t -> id r = Some j -> exists m, max_rowid t = Some m /\ j <= m.
Proof.
  induction t as [|x t IH]; simpl; [intros []|].
  intros [->|Hin] Hj.
  - rewrite Hj. destruct (max_rowid t) as [a|]; eexists; split;
      try reflexivity; lia.
  - destruct (IH Hin Hj) as (m & -> & Hm).
    destruct (id x) as [k|]; eexists; split; try reflexivity; lia.
Qed.

(** No row of the table carries the next rowid. *)
Lemma next_rowid_fresh (t : list Note) :
  find (has_id (next_rowid t)) t = None.
Proof.
  destruct (find (has_id (next_rowid t)) t) as [r|] eqn:E; [|reflexivity].
  apply find_has_id in E as (Hin & Hid).
  destruct (max_rowid_bound t r _ Hin Hid) as (m & Hm & Hle).
  unfold next_rowid in Hle. rewrite Hm in Hle. lia.
Qed.

Lemma find_app_miss {A : Type} (p : A -> bool) (l : list A) (x : A) :
  find p l = None -> p x = true -> find p (l ++ [x]) = Some x.
Proof.
  induction l as [|y l IH]; simpl; intros Hl Hx; [now rewrite Hx|].
  destruct (p y); [discriminate|now apply IH].
Qed.

Lemma set_tags_csv (l : list string) (n : Note) :
  tags_csv (set_tags (Some l) n) = PyStr.join "," (_normal_tags (Some l)).
Proof. destruct l; reflexivity. Qed.

Lemma set_tags_normal_csv (tags_ : option (list string)) (n : Note) :
  tags_csv (set_tags (Some (_normal_tags tags_)) n)
  = PyStr.join "," (_normal_tags tags_).
Proof.
  rewrite set_tags_csv, normal_tags_fixed; [reflexivity| | |].
  - apply normal_tags_normal.
  - apply normal_tags_NoDup.
  - apply normal_tags_Sorted.
Qed.

Lemma set_tags_frame (l : option (list string)) (n : Note) :
  id (set_tags l n) = id n /\ title (set_tags l n) = title n
  /\ content (set_tags l n) = content n /\ pinned (set_tags l n) = pinned n
  /\ archived (set_tags l n) = archived n
  /\ created_at (set_tags l n) = created_at n
  /\ updated_at (set_tags l n) = updated_at n.
Proof. destruct l as [[|a l]|]; repeat split. Qed.

(** C4 (as the code has it). [create_note] appends one row and returns it.
    The row has the next rowid as its id, the given title and content, the
    normalized tags joined by commas, [pinned] and [archived] false,
    [created_at] the first and [updated_at] the second of two successive
    readings of the clock; a lookup by the new id returns the same note. *)
Theorem create_note_persists_fresh_note (w : world) (title_ content_ : string)
  (tags_ : option (list string)) :
  let n := mkNote (Some (next_rowid (table w))) title_ content_
             (PyStr.join "," (_normal_tags tags_)) false false
             (clock w (ticks w)) (clock w (S (ticks w))) in
  let w' := mkWorld (table w ++ [n]) (clock w) (S (S (ticks w))) in
  create_note title_ content_ tags_ w = (Ok n, w')
  /\ get_note (Int (next_rowid (table w))) w' = (Ok (Some n), w')
  /\ (clock w (ticks w) = clock w (S (ticks w)) -> created_at n = updated_at n).
Proof.
  intros n w'.
  assert (Hn : with_id (Some (next_rowid (table w)))
                 (set_tags (Some (_normal_tags tags_))
                    (mkNote None title_ content_ EmptyString false false
                       (clock w (ticks w)) (clock w (S (ticks w))))) = n).
  { unfold with_id. rewrite set_tags_normal_csv.
    destruct (set_tags_frame (Some (_normal_tags tags_))
                (mkNote None title_ content_ EmptyString false false
                   (clock w (ticks w)) (clock w (S (ticks w)))))
      as (_ & -> & -> & -> & -> & -> & ->). reflexivity. }
  assert (Hfind : find (has_id (next_rowid (table w))) (table w ++ [n]) = Some n).
  { apply find_app_miss; [apply next_rowid_fresh|].
    unfold has_id, n. simpl. apply Z.eqb_refl. }
  split; [|split].
  - unfold create_note. run_monad. rewrite Hn.
    change (find (same_row n) (table w ++ [n]))
      with (find (has_id (next_rowid (table w))) (table w ++ [n])).
    rewrite Hfind. reflexivity.
  - rewrite get_note_spec. unfold resolve, numeric. simpl.
    now rewrite Hfind.
  - simpl. trivial.
Qed.

Lemma create_note_persists_fresh_note_witness :
  let w := mkWorld [] (fun _ => 5) 0 in
  let n := mkNote (Some 1) "hello" "world" "ideas,work" false false 5 5 in
  create_note "hello" "world" (Some ["Work"; "ideas"; "work"]) w
  = (Ok n, mkWorld [n] (fun _ => 5) 2)
  /\ created_at n = updated_at n.
Proof.
  intros w n.
  destruct (create_note_persists_fresh_note w "hello" "world"
              (Some ["Work"; "ideas"; "work"])) as (H & _ & Heq).
  split; [exact H|]. apply Heq. reflexivity.
Defined.

(** C4 fails as stated: with a clock that advances between two readings the
    new note has [created_at] 1000 and [updated_at] 1001. *)
Lemma create_note_timestamps_differ :
  exists n, value (create_note "hello" "world" None) empty_world = Ok n
            /\ created_at n = 1000 /\ updated_at n = 1001
            /\ created_at n <> updated_at n.
Proof.
  eexists. split; [reflexivity|]. repeat split. discriminate.
Qed.

End Creation.

(** ** Rewriting and removing a row *)

Section WriteBack.

Lemma same_row_refl (n r : Note) : same_row n r = true -> same_row n n = true.
Proof.
  unfold same_row, has_id. destruct (id n) as [k|]; [|discriminate].
  intros _. apply Z.eqb_refl.
Qed.

(** After its row has been rewritten, a refresh gives the object back. *)
Lemma refresh_rewritten (n : Note) (t : list Note) :
  match find (same_row n) (rewritten n t) with Some r => r | None => n end = n.
Proof.
  induction t as [|r t IH]; simpl; [reflexivity|].
  destruct (same_row n r) eqn:E.
  - now rewrite (same_row_refl n r E).
  - rewrite E. exact IH.
Qed.

(** The tail shared by edit, pin and archive: flush, refresh, return. *)
Lemma write_back (n : Note) (w : world) :
  (Session_update n ;;; (r <- Session_refresh n ;; ret r)) w
  = (Ok n, with_table (rewritten n (table w)) w).
Proof.
  run_monad. fold (rewritten n (table w)). rewrite refresh_rewritten.
  reflexivity.
Qed.

Lemma find_rewritten (n r : Note) (k : Z) (t : list Note) :
  id n = Some k -> In r t -> id r = Some k ->
  find (has_id k) (rewritten n t) = Some n.
Proof.
  intros Hn Hin Hr.
  assert (Hs : forall x, same_row n x = has_id k x)
    by (intros x; unfold same_row; now rewrite Hn).
  assert (Hk : has_id k n = true)
    by (unfold has_id; rewrite Hn; apply Z.eqb_refl).
  induction t as [|x t IH]; simpl; [destruct Hin|].
  rewrite Hs. destruct (has_id k x) eqn:E.
  - now rewrite Hk.
  - rewrite E. destruct Hin as [->|Hin].
    + unfold has_id in E. rewrite Hr, Z.eqb_refl in E. discriminate.
    + now apply IH.
Qed.

Lemma by_id_rewritten (n r : Note) (k : Z) (t : list Note) :
  int64 k = true -> id n = Some k -> In r t -> id r = Some k ->
  by_id k (rewritten n t) = Some n.
Proof.
  intros Hk Hn Hin Hr. rewrite by_id_in_range by exact Hk.
  now apply (find_rewritten n r).
Qed.

Lemma find_removed (n : Note) (k : Z) (t : list Note) :
  id n = Some k -> find (has_id k) (removed n t) = None.
Proof.
  intros Hn. unfold removed, same_row. rewrite Hn.
  induction t as [|x t IH]; simpl; [reflexivity|].
  destruct (has_id k x) eqn:E; simpl; [exact IH|]. now rewrite E.
Qed.

Lemma by_id_removed (n : Note) (k : Z) (t : list Note) :
  id n = Some k -> by_id k (removed n t) = None.
Proof.
  intros Hn. unfold by_id. destruct (int64 k); [|reflexivity].
  now apply find_removed.
Qed.

Lemma removed_In (n r : Note) (t : list Note) :
  In r (removed n t) -> In r t.
Proof. unfold removed. intros H. now apply filter_In in H. Qed.

Lemma resolve_Int_find (k : Z) (t : list Note) (n : Note) :
  find (has_id k) t = Some n -> resolve (Int k) t = Ok (Some n).
Proof. unfold resolve. simpl. now intros ->. Qed.

Lemma resolve_Int_hit (k : Z) (t : list Note) (n : Note) :
  by_id k t = Some n -> resolve (Int k) t = Ok (Some n).
Proof. intros H. apply by_id_find in H as (_ & H). now apply resolve_Int_find. Qed.

Lemma resolve_In (i : identifier) (t : list Note) (n : Note) :
  resolve i t = Ok (Some n) -> In n t.
Proof.
  unfold resolve. destruct (numeric i).
  - destruct (find (has_id (int i)) t) as [o|] eqn:E.
    + intros [= <-]. now apply find_has_id in E.
    + destruct (int64 (int i)); [|discriminate].
      intros [= H]. now apply by_title_Some in H.
  - intros [= H]. now apply by_title_Some in H.
Qed.

End WriteBack.

(** ** Editing *)

Section Editing.

Lemma assign_tags_frame (l : option (list string)) (n : Note) :
  let n' := assign l (fun l => set_tags (Some l)) n in
  id n' = id n /\ title n' = title n /\ content n' = content n
  /\ pinned n' = pinned n /\ archived n' = archived n
  /\ created_at n' = created_at n /\ updated_at n' = updated_at n.
Proof.
  destruct l as [l|]; [apply (set_tags_frame (Some l))|repeat split].
Qed.

(** C6. For an identifier that resolves to a note, [edit_note] returns the
    note with each provided field overwritten (the tags normalized), each
    field that was not provided as it was, id and [created_at] as they were,
    and [updated_at] set to the reading of the clock, whichever fields were
    provided; that note replaces the row in the table, and a lookup by its
    id returns it. *)
Theorem edit_note_keeps_unspecified_fields (w : world) (i : identifier)
  (n : Note) (title_ content_ : option string) (tags_ : option (list string))
  (archived_ pinned_ : option bool) :
  value (get_note i) w = Ok (Some n) ->
  exists n' : Note,
    let w' := with_table (rewritten n' (table w)) (ticked w) in
    edit_note i title_ content_ tags_ archived_ pinned_ w = (Ok n', w')
    /\ id n' = id n
    /\ created_at n' = created_at n
    /\ title n' = match title_ with Some v => v | None => title n end
    /\ content n' = match content_ with Some v => v | None => content n end
    /\ tags_csv n' = match tags_ with
                     | Some l => PyStr.join "," (_normal_tags (Some l))
                     | None => tags_csv n
                     end
    /\ archived n' = match archived_ with Some v => v | None => archived n end
    /\ pinned n' = match pinned_ with Some v => v | None => pinned n end
    /\ updated_at n' = clock w (ticks w)
    /\ (forall k, id n = Some k -> get_note (Int k) w' = (Ok (Some n'), w')).
Proof.
  intros H. apply resolve_of_value in H.
  set (tags_list := match tags_ with
                    | None => None
                    | Some l => Some (_normal_tags (Some l))
                    end).
  set (n1 := assign tags_list (fun l => set_tags (Some l))
               (assign content_ with_content (assign title_ with_title n))).
  set (n' := with_updated_at (clock w (ticks w))
               (assign pinned_ with_pinned
                  (assign archived_ with_archived n1))).
  exists n'. intros w'.
  destruct (assign_tags_frame tags_list
              (assign content_ with_content (assign title_ with_title n)))
    as (Hid & Hti & Hco & Hpi & Har & Hcr & _).
  fold n1 in Hid, Hti, Hco, Hpi, Har, Hcr.
  assert (Hid' : id n' = id n).
  { unfold n'. destruct pinned_, archived_; simpl; rewrite Hid;
      destruct content_, title_; reflexivity. }
  split; [|repeat split].
  - unfold edit_note. fold tags_list. unfold session_scope at 1, bind at 1.
    rewrite get_note_spec, H. unfold bind at 1, Session_merge, ret at 1.
    fold n1. unfold bind at 1, now. cbn [table clock ticks]. fold n'.
    change (bind (Session_update n')
              (fun _ => bind (Session_refresh n') (fun note => ret note))
              (mkWorld (table w) (clock w) (S (ticks w))))
      with ((Session_update n' ;;; (r <- Session_refresh n' ;; ret r))
              (ticked w)).
    rewrite write_back. reflexivity.
  - exact Hid'.
  - unfold n'. destruct pinned_, archived_; simpl; rewrite Hcr;
      destruct content_, title_; reflexivity.
  - unfold n'. destruct pinned_, archived_; simpl; rewrite Hti;
      destruct content_, title_; reflexivity.
  - unfold n'. destruct pinned_, archived_; simpl; rewrite Hco;
      destruct content_, title_; reflexivity.
  - assert (Ht : tags_csv n' = tags_csv n1)
      by (unfold n'; destruct pinned_, archived_; reflexivity).
    rewrite Ht. unfold n1, tags_list. destruct tags_ as [l|]; cbn [assign].
    + apply set_tags_normal_csv.
    + destruct content_, title_; reflexivity.
  - unfold n'. destruct pinned_, archived_; simpl; rewrite ?Har;
      destruct content_, title_; reflexivity.
  - unfold n'. destruct pinned_, archived_; simpl; rewrite ?Hpi;
      destruct content_, title_; reflexivity.
  - intros k Hk. rewrite get_note_spec. f_equal.
    apply resolve_Int_find. unfold w'. cbn [table with_table].
    apply (find_rewritten n' n k).
    + now rewrite Hid'.
    + now apply resolve_In in H.
    + exact Hk.
Qed.

Lemma edit_note_keeps_unspecified_fields_witness :
  exists n' : Note,
    value (edit_note (Int 1) (Some "final") None None None None) world_draft
    = Ok n'
    /\ title n' = "final" /\ content n' = "hello" /\ tags_csv n' = "temp"
    /\ archived n' = false /\ pinned n' = false /\ updated_at n' = 1002.
Proof.
  destruct (edit_note_keeps_unspecified_fields world_draft (Int 1) note_draft
              (Some "final") None None None None)
    as (n' & He & _ & _ & Ht & Hc & Hg & Ha & Hp & Hu & _);
    [reflexivity|].
  exists n'. unfold value. rewrite He. repeat split; assumption.
Defined.

End Editing.

(** ** Pin, archive, restore, delete *)

Section Lifecycle.

Lemma archive_note_spec (w : world) (i : identifier) (n : Note) (v : bool) :
  resolve i (table w) = Ok (Some n) ->
  let n' := with_updated_at (clock w (ticks w)) (with_archived v n) in
  archive_note i v w = (Ok n', with_table (rewritten n' (table w)) (ticked w)).
Proof.
  intros H n'. unfold archive_note, session_scope at 1, bind at 1.
  rewrite get_note_spec, H. unfold bind at 1, Session_merge, ret at 1.
  unfold bind at 1, now. cbn [table clock ticks]. fold n'.
  change (bind (Session_update n')
            (fun _ => bind (Session_refresh n') (fun note => ret note))
            (mkWorld (table w) (clock w) (S (ticks w))))
    with ((Session_update n' ;;; (r <- Session_refresh n' ;; ret r))
            (ticked w)).
  now rewrite write_back.
Qed.

Lemma pin_note_spec (w : world) (i : identifier) (n : Note) (v : bool) :
  resolve i (table w) = Ok (Some n) ->
  let n' := with_updated_at (clock w (ticks w)) (with_pinned v n) in
  pin_note i v w = (Ok n', with_table (rewritten n' (table w)) (ticked w)).
Proof.
  intros H n'. unfold pin_note, session_scope at 1, bind at 1.
  rewrite get_note_spec, H. unfold bind at 1, Session_merge, ret at 1.
  unfold bind at 1, now. cbn [table clock ticks]. fold n'.
  change (bind (Session_update n')
            (fun _ => bind (Session_refresh n') (fun note => ret note))
            (mkWorld (table w) (clock w) (S (ticks w))))
    with ((Session_update n' ;;; (r <- Session_refresh n' ;; ret r))
            (ticked w)).
  now rewrite write_back.
Qed.

Lemma delete_note_soft_spec (w : world) (i : identifier) (n : Note) :
  resolve i (table w) = Ok (Some n) ->
  let n' := with_updated_at (clock w (ticks w)) (with_archived true n) in
  delete_note i false w
  = (Ok tt, with_table (rewritten n' (table w)) (ticked w)).
Proof.
  intros H n'. unfold delete_note, session_scope at 1, bind at 1.
  rewrite get_note_spec, H. run_monad. reflexivity.
Qed.

Lemma delete_note_hard_spec (w : world) (i : identifier) (n : Note) :
  resolve i (table w) = Ok (Some n) ->
  delete_note i true w = (Ok tt, with_table (removed n (table w)) w).
Proof.
  intros H. unfold delete_note, session_scope at 1, bind at 1.
  rewrite get_note_spec, H. run_monad. reflexivity.
Qed.

Lemma get_note_Int_rewritten (w0 : world) (t : list Note) (n n' : Note) (k : Z) :
  by_id k t = Some n -> id n' = Some k ->
  get_note (Int k) (with_table (rewritten n' t) w0)
  = (Ok (Some n'), with_table (rewritten n' t) w0).
Proof.
  intros H Hid. rewrite get_note_spec. f_equal.
  apply resolve_Int_find. cbn [table with_table].
  apply by_id_Some in H as (Hin & Hn).
  now apply (find_rewritten n' n k).
Qed.

(** C7 (as the code has it). For the id of an existing note: after a soft
    delete, [get_note] on the id returns the note with [archived] true and
    [updated_at] set to the reading of the clock; after a hard delete no row
    has that id, [get_note] on the id returns what the exact-title lookup of
    the id's decimal form finds among the remaining rows, and so returns
    absent when no note has that title. *)
Theorem delete_then_get (w : world) (k : Z) (n : Note) :
  by_id k (table w) = Some n ->
  let n1 := with_updated_at (clock w (ticks w)) (with_archived true n) in
  let w1 := with_table (rewritten n1 (table w)) (ticked w) in
  let w2 := with_table (removed n (table w)) w in
  (delete_note (Int k) false w = (Ok tt, w1)
   /\ get_note (Int k) w1 = (Ok (Some n1), w1)
   /\ archived n1 = true
   /\ updated_at n1 = clock w (ticks w))
  /\ (delete_note (Int k) true w = (Ok tt, w2)
      /\ by_id k (table w2) = None
      /\ get_note (Int k) w2 = (Ok (by_title (str (Int k)) (table w2)), w2)
      /\ ((forall r, In r (table w) -> title r <> str (Int k)) ->
          get_note (Int k) w2 = (Ok None, w2))).
Proof.
  intros H n1 w1 w2.
  pose proof (resolve_Int_hit k (table w) n H) as Hr.
  destruct (by_id_Some k (table w) n H) as (Hin & Hid).
  assert (Hgone : by_id k (table w2) = None)
    by (apply by_id_removed; exact Hid).
  assert (Hget : get_note (Int k) w2
                 = (Ok (by_title (str (Int k)) (table w2)), w2)).
  { destruct (by_id_find k (table w) n H) as (Hk & _).
    rewrite get_note_spec. unfold resolve. cbn [numeric isinstance_int orb int].
    unfold w2. cbn [table with_table].
    now rewrite (find_removed n k (table w) Hid), Hk. }
  split; [repeat split|repeat split].
  - now apply delete_note_soft_spec.
  - now apply (get_note_Int_rewritten (ticked w) (table w) n n1 k).
  - now apply delete_note_hard_spec.
  - exact Hgone.
  - exact Hget.
  - intros Hno. rewrite Hget. f_equal. f_equal. apply by_title_None.
    intros r Hr'. apply Hno. now apply removed_In in Hr'.
Qed.

(** C8. For the id of an existing note, archiving and then restoring gives a
    note with [archived] false, stored under the same id; it is the note as
    it was before, with [archived] false and [updated_at] set to the reading
    of the clock taken by the restore.  On any identifier that resolves to a
    note, restore sets [archived] to false and [updated_at] to the reading
    of the clock, and nothing else. *)
Theorem restore_reverses_archive (w : world) (k : Z) (n : Note) :
  by_id k (table w) = Some n ->
  let n1 := with_updated_at (clock w (ticks w)) (with_archived true n) in
  let w1 := with_table (rewritten n1 (table w)) (ticked w) in
  let n2 := with_updated_at (clock w (S (ticks w))) (with_archived false n) in
  let w2 := with_table (rewritten n2 (table w1)) (ticked w1) in
  archive_note (Int k) true w = (Ok n1, w1)
  /\ archived n1 = true
  /\ restore_note (Int k) w1 = (Ok n2, w2)
  /\ archived n2 = false
  /\ get_note (Int k) w2 = (Ok (Some n2), w2)
  /\ (forall (i : identifier) (u : world) (m : Note),
        value (get_note i) u = Ok (Some m) ->
        let m' := with_updated_at (clock u (ticks u)) (with_archived false m) in
        restore_note i u = (Ok m', with_table (rewritten m' (table u)) (ticked u))).
Proof.
  intros H n1 w1 n2 w2.
  pose proof (resolve_Int_hit k (table w) n H) as Hr.
  destruct (by_id_Some k (table w) n H) as (Hin & Hid).
  assert (H1 : by_id k (table w1) = Some n1).
  { destruct (by_id_find k (table w) n H) as (Hk & _).
    unfold w1. cbn [table with_table]. now apply (by_id_rewritten n1 n k). }
  repeat split.
  - now apply archive_note_spec.
  - unfold restore_note.
    rewrite (archive_note_spec w1 (Int k) n1 false (resolve_Int_hit _ _ _ H1)).
    reflexivity.
  - now apply (get_note_Int_rewritten (ticked w1) (table w1) n1 n2 k).
  - intros i u m Hm m'. apply resolve_of_value in Hm.
    unfold restore_note. now apply archive_note_spec.
Qed.

Lemma delete_then_get_witness :
  value (get_note (Int 1)) (after (delete_note (Int 1) false) world_draft)
  = Ok (Some (mkNote (Some 1) "draft" "hello" "temp" false true 1000 1002))
  /\ value (get_note (Int 1)) (after (delete_note (Int 1) true) world_draft)
     = Ok None.
Proof.
  destruct (delete_then_get world_draft 1 note_draft)
    as ((Hs & Hg & _ & _) & (Hh & _ & _ & Hn)); [reflexivity|].
  unfold value, after. rewrite Hs, Hh. cbn [snd].
  rewrite Hg, Hn; [split; reflexivity|].
  intros r [<-|[]]. discriminate.
Defined.

(** C7 fails as stated: the note with id 1 exists; after its hard delete,
    [get_note] on 1 returns the remaining note, whose title is 1. *)
Lemma get_after_hard_delete_finds_titled_note :
  by_id 1 (table world_x_1)
  = Some (mkNote (Some 1) "x" EmptyString EmptyString false false 1000 1001)
  /\ value (get_note (Int 1)) (after (delete_note (Int 1) true) world_x_1)
     = Ok (Some (mkNote (Some 2) "1" EmptyString EmptyString false false 1002 1003)).
Proof. split; reflexivity. Qed.

Lemma restore_reverses_archive_witness :
  value (restore_note (Int 1)) (after (archive_note (Int 1) true) world_draft)
  = Ok (mkNote (Some 1) "draft" "hello" "temp" false false 1000 1003)
  /\ value (get_note (Int 1))
       (after (restore_note (Int 1))
              (after (archive_note (Int 1) true) world_draft))
     = Ok (Some (mkNote (Some 1) "draft" "hello" "temp" false false 1000 1003)).
Proof.
  destruct (restore_reverses_archive world_draft 1 note_draft)
    as (Ha & _ & Hr & _ & Hg & _); [reflexivity|].
  unfold value, after. rewrite Ha. cbn [snd]. rewrite Hr. cbn [snd fst].
  rewrite Hg. split; reflexivity.
Defined.

End Lifecycle.

(** ** The LIKE operator on patterns of the form %literal% *)

Section Like.

Lemma like_any_run (q s : string) :
  Sql.pattern_compare (String "%" q) s
  = Sql.pattern_compare q s
    || match s with
       | EmptyString => false
       | String _ s' => Sql.pattern_compare (String "%" q) s'
       end.
Proof. destruct s; reflexivity. Qed.

Lemma like_percent (s : string) : Sql.pattern_compare "%" s = true.
Proof.
  induction s as [|c s IH]; [reflexivity|].
  rewrite like_any_run, IH. apply orb_true_r.
Qed.

Lemma like_char (c d : ascii) (p s : string) :
  Sql.is_percent c = false -> Sql.is_underscore c = false ->
  Sql.pattern_compare (String c p) (String d s)
  = Ascii.eqb (PyStr.lower_char c) (PyStr.lower_char d) && Sql.pattern_compare p s.
Proof. intros H1 H2. simpl. now rewrite H1, H2. Qed.

Lemma like_char_empty (c : ascii) (p : string) :
  Sql.is_percent c = false -> Sql.pattern_compare (String c p) EmptyString = false.
Proof.
  intros H1. simpl. rewrite H1. destruct (Sql.is_underscore c); reflexivity.
Qed.

(** A wildcard-free literal followed by [%] matches the texts that start
    with the literal, letters compared without regard to case. *)
Lemma like_literal_prefix (p s : string) :
  Sql.wildcard_free p = true ->
  Sql.pattern_compare (p ++ "%") s = String.prefix (PyStr.lower p) (PyStr.lower s).
Proof.
  revert s. induction p as [|c p IH]; intros s H.
  - simpl String.append. rewrite like_percent.
    now destruct (PyStr.lower s).
  - simpl in H. apply andb_true_iff in H as (Hc & Hp).
    apply negb_true_iff, orb_false_iff in Hc as (H1 & H2).
    change ((String c p ++ "%")%string) with (String c (p ++ "%")).
    destruct s as [|d s].
    + now rewrite like_char_empty.
    + rewrite like_char, IH by assumption. simpl.
      destruct (Ascii.eqb_spec (PyStr.lower_char c) (PyStr.lower_char d)) as [E|E];
        destruct (ascii_dec (PyStr.lower_char c) (PyStr.lower_char d)) as [E'|E'];
        try contradiction; reflexivity.
Qed.

(** Between two [%], a wildcard-free literal matches the texts that contain
    it, letters compared without regard to case. *)
Lemma like_literal_contains (p s : string) :
  Sql.wildcard_free p = true ->
  Sql.pattern_compare (String "%" (p ++ "%")) s
  = PyStr.contains (PyStr.lower p) (PyStr.lower s).
Proof.
  intros H. induction s as [|d s IH].
  - rewrite like_any_run, like_literal_prefix by exact H. reflexivity.
  - rewrite like_any_run, like_literal_prefix, IH by exact H. reflexivity.
Qed.

Lemma upto_nul_fixed (s : string) :
  Sql.nul_free s = true -> Sql.upto_nul s = s.
Proof.
  unfold Sql.nul_free. induction s as [|c s IH]; simpl; [reflexivity|].
  intros H. apply andb_true_iff in H as (Hc & Hs).
  apply negb_true_iff in Hc. now rewrite Hc, IH.
Qed.

Lemma nul_free_app (a b : string) :
  Sql.nul_free (a ++ b) = Sql.nul_free a && Sql.nul_free b.
Proof.
  unfold Sql.nul_free.
  induction a as [|c a IH]; simpl; [reflexivity|].
  now rewrite IH, andb_assoc.
Qed.

(** With a pattern that has no NUL, LIKE compares the pattern with the text
    up to its first NUL. *)
Lemma like_nul_free_pattern (p s : string) :
  Sql.nul_free p = true ->
  Sql.like p s = Sql.pattern_compare p (Sql.upto_nul s).
Proof. intros H. unfold Sql.like. now rewrite upto_nul_fixed. Qed.

(** Between two [%], a literal without wildcard and without NUL matches the
    texts that contain it before their first NUL, letters compared without
    regard to case. *)
Lemma like_contains (p s : string) :
  Sql.wildcard_free p = true -> Sql.nul_free p = true ->
  Sql.like (String "%" (p ++ "%")) s
  = PyStr.contains (PyStr.lower p) (PyStr.lower (Sql.upto_nul s)).
Proof.
  intros Hw Hn. rewrite like_nul_free_pattern.
  - now apply like_literal_contains.
  - change (String "%" (p ++ "%")) with (("%" ++ p ++ "%")%string).
    now rewrite !nul_free_app, Hn.
Qed.

Lemma like_op_fits (p s : string) :
  Sql.too_complex p = false -> like_op p s = Ok (Sql.like p s).
Proof. unfold like_op. now intros ->. Qed.

Lemma select_rows_ext (c c' : clause) (t : list Note) :
  (forall n, In n t -> c n = c' n) -> select_rows c t = select_rows c' t.
Proof.
  induction t as [|r t IH]; intros H; [reflexivity|]. simpl.
  rewrite (H r) by now left. rewrite IH; [reflexivity|].
  intros n Hn. apply H. now right.
Qed.


Lemma wildcard_free_app (a b : string) :
  Sql.wildcard_free (a ++ b)
  = Sql.wildcard_free a && Sql.wildcard_free b.
Proof.
  unfold Sql.wildcard_free.
  induction a as [|c a IH]; simpl; [reflexivity|].
  now rewrite IH, andb_assoc.
Qed.

Lemma app_assoc_str (a b c : string) :
  ((a ++ b) ++ c = a ++ (b ++ c))%string.
Proof. induction a as [|x a IH]; simpl; [reflexivity|now rewrite IH]. Qed.

Lemma order_by_In (le : Note -> Note -> bool) (l : list Note) (n : Note) :
  In n (order_by le l) <-> In n l.
Proof.
  assert (Hins : forall x l, In n (insert_by le x l) <-> x = n \/ In n l).
  { intros x l0. induction l0 as [|y l0 IH]; simpl; [tauto|].
    destruct (le x y); simpl; rewrite ?IH; tauto. }
  induction l as [|x l IH]; simpl; [tauto|].
  rewrite Hins, IH. tauto.
Qed.

Lemma where_archived_iff (include_archived : bool) (n : Note) :
  where_archived include_archived n = true
  <-> include_archived = true \/ archived n = false.
Proof.
  unfold where_archived. destruct include_archived, (archived n); simpl;
    intuition congruence.
Qed.

End Like.

(** ** Listing by tag *)

Section Listing.

Lemma list_clause_fits (tag search : option string) (include_archived : bool)
  (n : Note) :
  fits (tag_pattern tag) = true -> fits (search_pattern search) = true ->
  list_clause tag search include_archived n
  = Ok (listed tag search include_archived n).
Proof.
  unfold list_clause, listed, tag_clause, search_clause, where_tag,
    where_search, tag_pattern, search_pattern, fits, test.
  intros Ht Hs.
  destruct (where_archived include_archived n); [|reflexivity].
  cbn [and_then andb].
  destruct tag as [t|]; [destruct (PyStr.truthy t)|];
    (destruct search as [q|]; [destruct (PyStr.truthy q)|]);
    try apply negb_true_iff in Ht; try apply negb_true_iff in Hs;
    rewrite ?like_op_fits by assumption; cbn [and_then or_else];
    repeat match goal with
           | |- context [Sql.like ?p ?x] => destruct (Sql.like p x)
           end; reflexivity.
Qed.

Lemma list_notes_run (w : world) (tag search : option string)
  (include_archived : bool) (sort : string) :
  fits (tag_pattern tag) = true -> fits (search_pattern search) = true ->
  list_notes tag search include_archived sort w
  = (Ok (order_by (sort_key sort)
           (filter (listed tag search include_archived) (table w))), w).
Proof.
  intros Ht Hs. unfold list_notes, session_scope, Session_exec, bind, ret.
  rewrite (select_rows_ext _
             (fun n => test (listed tag search include_archived n)))
    by (intros n _; now apply list_clause_fits).
  now rewrite select_rows_test.
Qed.

(** C9 (as the code has it). With a non-empty tag filter and no search,
    [list_notes] trims and lower-cases the filter and makes the LIKE pattern
    of the filter between two [%].  When the pattern is at most 50000 bytes
    long, it returns exactly the rows, archived ones only if asked for,
    whose [tags_csv] matches the pattern, and leaves the world as it is.
    When besides the normalized filter has no [%], no [_] and no NUL, these
    are the rows whose [tags_csv], read up to its first NUL, contains the
    filter up to letter case, and for a lower-case [tags_csv] without NUL
    (as [set_tags] writes it from such tags) the rows whose [tags_csv]
    contains the filter. *)
Theorem list_notes_tag_filter (w : world) (tag sort : string)
  (include_archived : bool) :
  PyStr.truthy tag = true ->
  let t := PyStr.lower (PyStr.strip tag) in
  Sql.too_complex ("%" ++ t ++ "%") = false ->
  exists l : list Note,
    list_notes (Some tag) None include_archived sort w = (Ok l, w)
    /\ (forall n, In n l <->
          In n (table w)
          /\ (include_archived = true \/ archived n = false)
          /\ Sql.like ("%" ++ t ++ "%") (tags_csv n) = true)
    /\ (Sql.wildcard_free t = true -> Sql.nul_free t = true ->
        forall n, In n l <->
          In n (table w)
          /\ (include_archived = true \/ archived n = false)
          /\ PyStr.contains t (PyStr.lower (Sql.upto_nul (tags_csv n))) = true)
    /\ (Sql.wildcard_free t = true -> Sql.nul_free t = true ->
        forall n, PyStr.lower (tags_csv n) = tags_csv n ->
          Sql.nul_free (tags_csv n) = true ->
          (In n l <->
           In n (table w)
           /\ (include_archived = true \/ archived n = false)
           /\ PyStr.contains t (tags_csv n) = true)).
Proof.
  intros Htag t Hfit.
  set (l := order_by (sort_key sort)
              (filter (listed (Some tag) None include_archived) (table w))).
  assert (Hl : forall n, In n l <->
                 In n (table w)
                 /\ (include_archived = true \/ archived n = false)
                 /\ Sql.like ("%" ++ t ++ "%") (tags_csv n) = true).
  { intros n. unfold l. rewrite order_by_In, filter_In.
    unfold listed, where_tag, where_search. rewrite Htag. fold t.
    rewrite andb_true_r, andb_true_iff, where_archived_iff. tauto. }
  assert (Hc : Sql.wildcard_free t = true -> Sql.nul_free t = true ->
               forall n, Sql.like ("%" ++ t ++ "%") (tags_csv n)
                         = PyStr.contains t
                             (PyStr.lower (Sql.upto_nul (tags_csv n)))).
  { intros Hw Hz n.
    change (("%" ++ t ++ "%")%string) with (String "%" (t ++ "%")).
    rewrite like_contains by assumption.
    unfold t at 1. now rewrite lower_idem. }
  exists l. split; [|split; [exact Hl|split]].
  - apply list_notes_run; [|reflexivity].
    unfold fits, tag_pattern. rewrite Htag. fold t. now rewrite Hfit.
  - intros Hw Hz n. rewrite Hl, Hc by assumption. tauto.
  - intros Hw Hz n Hlow Hnul.
    rewrite Hl, Hc, (upto_nul_fixed _ Hnul), Hlow by assumption. tauto.
Qed.

Lemma list_notes_tag_filter_witness :
  exists l : list Note,
    list_notes (Some " Wor ") None false "updated" world_work
    = (Ok l, world_work)
    /\ (forall n, In n l <->
          In n (table world_work)
          /\ (false = true \/ archived n = false)
          /\ PyStr.contains "wor"
               (PyStr.lower (Sql.upto_nul (tags_csv n))) = true).
Proof.
  destruct (list_notes_tag_filter world_work " Wor " "updated" false)
    as (l & He & _ & Hc & _); [reflexivity|reflexivity|].
  exists l. split; [exact He|]. apply Hc; reflexivity.
Defined.

(** C9 fails as stated: the filter w_rk is not a substring of the stored
    tags work, yet the note is returned. *)
Lemma list_notes_tag_wildcard_matches :
  exists n,
    value (list_notes (Some "w_rk") None false "updated") world_work = Ok [n]
    /\ tags_csv n = "work"
    /\ PyStr.lower (PyStr.strip "w_rk") = "w_rk"
    /\ PyStr.contains "w_rk" (tags_csv n) = false.
Proof. eexists. repeat split. Qed.

End Listing.

(** ** Backlinks *)

Section Backlinks.

Lemma backlink_clause_fits (title_ : string) (include_archived : bool)
  (n : Note) :
  Sql.too_complex ("%[[" ++ title_ ++ "]]%") = false ->
  backlink_clause title_ include_archived n
  = Ok (where_archived include_archived n
        && Sql.like ("%[[" ++ title_ ++ "]]%") (content n)).
Proof.
  intros H. unfold backlink_clause, test. rewrite like_op_fits by exact H.
  now destruct (where_archived include_archived n).
Qed.

Lemma backlinks_for_hit (w : world) (i : identifier) (target : Note)
  (include_archived : bool) :
  resolve i (table w) = Ok (Some target) ->
  Sql.too_complex ("%[[" ++ title target ++ "]]%") = false ->
  backlinks_for i include_archived w
  = (Ok (filter (fun n =>
                   where_archived include_archived n
                   && Sql.like ("%[[" ++ title target ++ "]]%") (content n))
           (table w)), w).
Proof.
  intros H Hfit. unfold backlinks_for, bind at 1. rewrite get_note_spec, H.
  unfold session_scope, Session_exec.
  rewrite (select_rows_ext _
             (fun n => test (where_archived include_archived n
                             && Sql.like ("%[[" ++ title target ++ "]]%")
                                  (content n))))
    by (intros n _; now apply backlink_clause_fits).
  now rewrite select_rows_test.
Qed.

Lemma backlink_pattern (s : string) :
  ("%[[" ++ s ++ "]]%"
   = String "%" (("[[" ++ s ++ "]]") ++ "%"))%string.
Proof.
  simpl. do 3 f_equal.
  change ("]]%") with (("]]" ++ "%")%string).
  now rewrite app_assoc_str.
Qed.

Lemma wildcard_free_marker (s : string) :
  Sql.wildcard_free ("[[" ++ s ++ "]]") = Sql.wildcard_free s.
Proof.
  change (("[[" ++ s ++ "]]")%string) with (String "[" (String "[" (s ++ "]]"))).
  unfold Sql.wildcard_free at 1. simpl PyStr.all_chars.
  fold (Sql.wildcard_free (s ++ "]]")).
  rewrite wildcard_free_app. apply andb_true_r.
Qed.

Lemma nul_free_marker (s : string) :
  Sql.nul_free ("[[" ++ s ++ "]]") = Sql.nul_free s.
Proof.
  change (("[[" ++ s ++ "]]")%string) with (("[[" ++ (s ++ "]]"))%string).
  rewrite !nul_free_app. change (Sql.nul_free "[[") with true.
  change (Sql.nul_free "]]") with true. now rewrite andb_true_r.
Qed.

(** C2 (the code on two stores). A note whose content is see [[abc]] is
    returned as a backlink of the note titled a_c, and a note whose content
    is see [[b]] as a backlink of the note titled B; neither content
    contains the title in double brackets. *)
Theorem backlinks_for_not_literal :
  (exists n,
     value (backlinks_for (Str "a_c") false) world_abc = Ok [n]
     /\ content n = "see [[abc]]"
     /\ PyStr.contains "[[a_c]]" (content n) = false)
  /\ (exists n,
        value (backlinks_for (Str "B") false) world_b = Ok [n]
        /\ content n = "see [[b]]"
        /\ PyStr.contains "[[B]]" (content n) = false).
Proof. split; eexists; repeat split. Qed.

End Backlinks.

(** ** Link extraction *)

Section Links.

Lemma space_not_rbracket (c : ascii) :
  PyStr.isspace c = true -> BACKLINK_RE.is_rbracket c = false.
Proof.
  intros H. unfold BACKLINK_RE.is_rbracket.
  destruct (Ascii.eqb_spec c "]") as [->|]; [discriminate H|reflexivity].
Qed.

Lemma span_class_blank (ws rest : string) :
  PyStr.all_chars PyStr.isspace ws = true ->
  BACKLINK_RE.span_class (ws ++ String "]" rest) = (ws, String "]" rest).
Proof.
  induction ws as [|c ws IH]; simpl; intros H; [reflexivity|].
  apply andb_true_iff in H as (Hc & Hws).
  now rewrite (space_not_rbracket c Hc), (IH Hws).
Qed.

Lemma finditer_from_skip (s : string) (k : nat) :
  (String.length s <= k)%nat -> BACKLINK_RE.finditer_from k s = [].
Proof.
  revert k. induction s as [|c s IH]; intros k H; [reflexivity|].
  simpl in H. destruct k as [|k]; [lia|]. simpl. apply IH. lia.
Qed.

Lemma length_app_str (a b : string) :
  String.length (a ++ b) = (String.length a + String.length b)%nat.
Proof. induction a as [|c a IH]; simpl; [reflexivity|now rewrite IH]. Qed.

Lemma lstrip_blank (ws : string) :
  PyStr.all_chars PyStr.isspace ws = true -> PyStr.lstrip ws = EmptyString.
Proof.
  induction ws as [|c ws IH]; simpl; intros H; [reflexivity|].
  apply andb_true_iff in H as (Hc & Hws). rewrite Hc. now apply IH.
Qed.

Lemma finditer_blank_marker (ws : string) :
  ws <> EmptyString -> PyStr.all_chars PyStr.isspace ws = true ->
  BACKLINK_RE.finditer ("[[" ++ ws ++ "]]") = [ws].
Proof.
  intros Hne Hws. unfold BACKLINK_RE.finditer.
  change (("[[" ++ ws ++ "]]")%string) with (String "[" (String "[" (ws ++ "]]"))).
  cbn [BACKLINK_RE.finditer_from BACKLINK_RE.match_at].
  change (BACKLINK_RE.is_lbracket "[") with true. cbn [andb].
  rewrite (span_class_blank ws "]" Hws).
  destruct ws as [|c ws]; [congruence|].
  change (BACKLINK_RE.is_rbracket "]") with true. cbn [andb Nat.pred Nat.add].
  f_equal. apply finditer_from_skip.
  cbn [String.length String.append]. rewrite length_app_str. simpl. lia.
Qed.

(** C10. A marker whose bracketed span is non-empty and consists only of
    white space is matched, its span is trimmed to the empty string, and the
    empty string is kept: the result is the list holding the empty string. *)
Theorem extract_links_keeps_blank_marker (ws : string) :
  ws <> EmptyString -> PyStr.all_chars PyStr.isspace ws = true ->
  extract_links (Some ("[[" ++ ws ++ "]]")) = [EmptyString]
  /\ In EmptyString (extract_links (Some ("[[" ++ ws ++ "]]"))).
Proof.
  intros Hne Hws.
  assert (H : extract_links (Some ("[[" ++ ws ++ "]]")) = [EmptyString]).
  { unfold extract_links.
    change (("[[" ++ ws ++ "]]")%string)
      with (String "[" (String "[" (ws ++ "]]"))).
    change (String "[" (String "[" (ws ++ "]]")))
      with (("[[" ++ ws ++ "]]")%string).
    rewrite (finditer_blank_marker ws Hne Hws).
    cbn [map]. unfold PyStr.strip. rewrite (lstrip_blank ws Hws).
    reflexivity. }
  split; [exact H|]. rewrite H. now left.
Qed.

Lemma extract_links_keeps_blank_marker_witness :
  extract_links (Some "[[ ]]") = [EmptyString]
  /\ In EmptyString (extract_links (Some "[[ ]]")).
Proof.
  apply (extract_links_keeps_blank_marker " "); [discriminate|reflexivity].
Defined.

End Links.

(** ** The repository's tests, run on the model *)

Section RepositoryTests.

Example test_create_note_service_and_return_id :
  exists n,
    value (create_note "hello" "world" (Some ["Work"; "ideas"; "work"]))
      empty_world = Ok n
    /\ id n <> None /\ title n = "hello" /\ content n = "world"
    /\ tags n = ["ideas"; "work"].
Proof. eexists. repeat split. discriminate. Qed.

Example test_list_filters_and_sorting :
  titles (value (list_notes (Some "work") None false "updated")
            world_alpha_beta_gamma) = ["gamma"; "alpha"]
  /\ titles (value (list_notes None (Some "keyword") false "updated")
               world_alpha_beta_gamma) = ["beta"]
  /\ titles (value (list_notes None None false "title")
               world_alpha_beta_gamma) = ["alpha"; "beta"; "gamma"].
Proof. repeat split. Qed.

Example test_edit_updates_fields_and_timestamp :
  value (edit_note (Int 1) (Some "final") (Some "world")
           (Some ["Work"; "ideas"]) None (Some true)) world_draft
  = Ok (mkNote (Some 1) "final" "world" "ideas,work" true false 1000 1002).
Proof. reflexivity. Qed.

Example test_pin_archive_restore_purge_and_backlinks :
  let w1 := after (pin_note (Int 1) true) world_A_B in
  let w2 := after (pin_note (Int 1) false) w1 in
  let w3 := after (archive_note (Int 1) true) w2 in
  let w4 := after (restore_note (Int 1)) w3 in
  let w5 := after (purge_note (Int 1)) w4 in
  titles (value (backlinks_for (Str "B") false) w4) = ["A"]
  /\ value (get_note (Int 1)) w5 = Ok None.
Proof. split; reflexivity. Qed.

End RepositoryTests.

(** * Further properties of the service layer *)

(** ** What tag normalization keeps *)

Section NormalTagsContent.

Lemma strip_empty_of_empty (u : string) :
  PyStr.strip u <> EmptyString -> u <> EmptyString.
Proof. intros H ->. now apply H. Qed.

Lemma normal_tags_keeps (l : list string) (u : string) :
  In u l -> PyStr.strip u <> EmptyString ->
  In (PyStr.lower (PyStr.strip u)) (_normal_tags (Some l)).
Proof.
  intros Hu Hne.
  destruct l as [|a l]; [destruct Hu|].
  unfold _normal_tags. rewrite sorted_In. unfold PyStr.set_of.
  rewrite nodup_In, in_map_iff. exists u. split; [reflexivity|].
  apply filter_In. split; [exact Hu|].
  apply andb_true_iff. split; apply truthy_true; [|exact Hne].
  now apply strip_empty_of_empty.
Qed.

(** X1. The normalized list holds exactly the trimmed, lower-cased forms of the
    tags that are not blank: nothing else is added, and no such tag is
    lost. *)
Theorem normal_tags_membership (l : list string) (t : string) :
  In t (_normal_tags (Some l)) <->
  exists u, In u l /\ PyStr.strip u <> EmptyString
            /\ t = PyStr.lower (PyStr.strip u).
Proof.
  split; [apply normal_tags_In|].
  intros (u & Hu & Hne & ->). now apply normal_tags_keeps.
Qed.

Lemma str_lt_irrefl (a : string) : ~ str_lt a a.
Proof.
  unfold str_lt, String.ltb. intros H.
  destruct (String.compare a a) eqn:E; try discriminate.
  pose proof (String.compare_antisym a a) as Ha. rewrite E in Ha.
  discriminate.
Qed.

(** Two strictly increasing lists with the same elements are equal. *)
Lemma strictly_sorted_ext (l1 l2 : list string) :
  StronglySorted str_lt l1 -> StronglySorted str_lt l2 ->
  (forall x, In x l1 <-> In x l2) -> l1 = l2.
Proof.
  intros H1. revert l2. induction H1 as [|a l1 Hs1 IH Ha]; intros l2 H2 Hin.
  - destruct l2 as [|b l2]; [reflexivity|]. now elim (proj2 (Hin b) (or_introl eq_refl)).
  - destruct H2 as [|b l2 Hs2 Hb].
    + now elim (proj1 (Hin a) (or_introl eq_refl)).
    + rewrite Forall_forall in Ha, Hb.
      assert (Hab : a = b).
      { destruct (proj1 (Hin a) (or_introl eq_refl)) as [E|Ea]; [now symmetry|].
        destruct (proj2 (Hin b) (or_introl eq_refl)) as [E|Eb]; [exact E|].
        elim (str_lt_irrefl a).
        apply (str_lt_trans a b a); [now apply Ha|now apply Hb]. }
      subst b. f_equal. apply IH; [exact Hs2|].
      intros x. split; intros Hx.
      * destruct (proj1 (Hin x) (or_intror Hx)) as [E|Hx2]; [|exact Hx2].
        subst x. elim (str_lt_irrefl a). now apply Ha.
      * destruct (proj2 (Hin x) (or_intror Hx)) as [E|Hx1]; [|exact Hx1].
        subst x. elim (str_lt_irrefl a). now apply Hb.
Qed.

Lemma normal_tags_strongly_sorted (tags_ : option (list string)) :
  StronglySorted str_lt (_normal_tags tags_).
Proof.
  apply Sorted_strongly, Sorted_strict;
    [apply normal_tags_Sorted|apply normal_tags_NoDup].
Qed.

(** X2. The result of normalization depends only on which tags are given, not on
    their order or on how often each is given. *)
Theorem normal_tags_order_irrelevant (l1 l2 : list string) :
  (forall u, In u l1 <-> In u l2) ->
  _normal_tags (Some l1) = _normal_tags (Some l2).
Proof.
  intros H. apply strictly_sorted_ext; try apply normal_tags_strongly_sorted.
  intros t. split; intros Ht; apply normal_tags_In in Ht as (u & Hu & Hne & ->);
    apply normal_tags_keeps; try assumption; now apply H.
Qed.

Lemma normal_tags_order_irrelevant_witness :
  _normal_tags (Some ["Work"; "ideas"; "work"])
  = _normal_tags (Some ["ideas"; "work"; "Work"; "ideas"]).
Proof.
  apply normal_tags_order_irrelevant. intros u. simpl. tauto.
Defined.

End NormalTagsContent.

(** ** Reading the tags back *)

Section TagsProperty.

Lemma no_comma_app (a b : string) :
  no_comma (a ++ b) = no_comma a && no_comma b.
Proof.
  unfold no_comma. induction a as [|c a IH]; simpl; [reflexivity|].
  now rewrite IH, andb_assoc.
Qed.

Lemma app_empty_str (s : string) : (s ++ EmptyString)%string = s.
Proof. induction s as [|c s IH]; simpl; [reflexivity|now rewrite IH]. Qed.

Lemma split_comma_piece (x cur : string) :
  no_comma x = true -> split_comma cur x = [(cur ++ x)%string].
Proof.
  revert cur. induction x as [|c x IH]; intros cur H; simpl.
  - now rewrite app_empty_str.
  - unfold no_comma in H. simpl in H. apply andb_true_iff in H as (Hc & Hx).
    apply negb_true_iff in Hc. rewrite Hc, (IH _ Hx), app_assoc_str.
    reflexivity.
Qed.

Lemma split_comma_cons (x rest cur : string) :
  no_comma x = true ->
  split_comma cur (x ++ String "," rest)
  = (cur ++ x)%string :: split_comma EmptyString rest.
Proof.
  revert cur. induction x as [|c x IH]; intros cur H; simpl.
  - now rewrite app_empty_str.
  - unfold no_comma in H. simpl in H. apply andb_true_iff in H as (Hc & Hx).
    apply negb_true_iff in Hc. rewrite Hc, (IH _ Hx), app_assoc_str.
    reflexivity.
Qed.

(** Splitting undoes joining, for pieces without a comma. *)
Lemma split_comma_join (l : list string) :
  l <> [] -> Forall (fun x => no_comma x = true) l ->
  split_comma EmptyString (PyStr.join "," l) = l.
Proof.
  induction l as [|x l IH]; intros Hne Hl; [congruence|].
  inversion Hl as [|? ? Hx Hl']; subst.
  destruct l as [|y l].
  - simpl. now rewrite split_comma_piece.
  - change (PyStr.join "," (x :: y :: l))
      with ((x ++ String "," (PyStr.join "," (y :: l)))%string).
    rewrite split_comma_cons by exact Hx. simpl String.append.
    f_equal. apply IH; [discriminate|exact Hl'].
Qed.

Lemma tags_as_split (n : Note) :
  tags n = filter PyStr.truthy (split_comma EmptyString (tags_csv n)).
Proof. unfold tags. now destruct (tags_csv n). Qed.

Lemma comma_lower_char (c : ascii) :
  Ascii.eqb (PyStr.lower_char c) "," = Ascii.eqb c ",".
Proof. destruct c as [[] [] [] [] [] [] [] []]; vm_compute; reflexivity. Qed.

Lemma no_comma_lower (s : string) : no_comma (PyStr.lower s) = no_comma s.
Proof.
  unfold no_comma. induction s as [|c s IH]; simpl; [reflexivity|].
  now rewrite comma_lower_char, IH.
Qed.

Lemma no_comma_lstrip (s : string) :
  no_comma s = true -> no_comma (PyStr.lstrip s) = true.
Proof.
  unfold no_comma. induction s as [|c s IH]; simpl; [trivial|].
  intros H. destruct (PyStr.isspace c); [|exact H].
  apply andb_true_iff in H as (_ & H). now apply IH.
Qed.

Lemma no_comma_rstrip (s : string) :
  no_comma s = true -> no_comma (PyStr.rstrip s) = true.
Proof.
  unfold no_comma. induction s as [|c s IH]; simpl; [trivial|].
  intros H. apply andb_true_iff in H as (Hc & Hs). specialize (IH Hs).
  destruct (PyStr.rstrip s) as [|d r].
  - destruct (PyStr.isspace c); simpl; [reflexivity|now rewrite Hc].
  - simpl. rewrite Hc. exact IH.
Qed.

Lemma normal_tags_no_comma (l : list string) :
  Forall (fun u => no_comma u = true) l ->
  Forall (fun t => no_comma t = true) (_normal_tags (Some l)).
Proof.
  intros H. rewrite Forall_forall in *. intros t Ht.
  apply normal_tags_In in Ht as (u & Hu & _ & ->).
  rewrite no_comma_lower. apply no_comma_rstrip, no_comma_lstrip. now apply H.
Qed.

Lemma normal_tags_truthy (tags_ : option (list string)) :
  forall t, In t (_normal_tags tags_) -> PyStr.truthy t = true.
Proof.
  intros t Ht. apply truthy_true. now destruct (normal_tags_normal tags_ t Ht).
Qed.

Lemma tags_of_csv (l : list string) (n : Note) :
  Forall (fun t => no_comma t = true) l ->
  (forall t, In t l -> PyStr.truthy t = true) ->
  tags_csv n = PyStr.join "," l -> tags n = l.
Proof.
  intros Hc Ht E. rewrite tags_as_split, E.
  destruct l as [|x l]; [reflexivity|].
  rewrite split_comma_join; [|discriminate|exact Hc].
  now apply filter_all.
Qed.

(** X3. The tags written by [set_tags] and read back through the [tags]
    property are the normalized tags, when no given tag contains a comma. *)
Theorem tags_after_set_tags (l : list string) (n : Note) :
  Forall (fun u => no_comma u = true) l ->
  tags (set_tags (Some l) n) = _normal_tags (Some l).
Proof.
  intros H. apply tags_of_csv.
  - now apply normal_tags_no_comma.
  - apply normal_tags_truthy.
  - apply set_tags_csv.
Qed.

Lemma tags_after_set_tags_witness :
  tags (set_tags (Some ["Work"; " ideas "; "work"; " "]) note_draft)
  = _normal_tags (Some ["Work"; " ideas "; "work"; " "]).
Proof.
  apply tags_after_set_tags. repeat constructor.
Defined.

Lemma split_comma_pieces (s cur x : string) :
  no_comma cur = true -> In x (split_comma cur s) -> no_comma x = true.
Proof.
  revert cur. induction s as [|c s IH]; intros cur Hcur; simpl.
  - intros [<-|[]]. exact Hcur.
  - destruct (Ascii.eqb c ",") eqn:E.
    + intros [<-|Hx]; [exact Hcur|]. now apply (IH EmptyString).
    + apply IH. rewrite no_comma_app, Hcur. unfold no_comma. simpl.
      now rewrite E.
Qed.

(** X4. Whatever the row holds, the [tags] property gives back neither an empty
    string nor a string with a comma, and an empty column gives no tag. *)
Theorem tags_property_pieces (n : Note) :
  (forall t, In t (tags n) -> t <> EmptyString /\ no_comma t = true)
  /\ (tags_csv n = EmptyString -> tags n = []).
Proof.
  split.
  - intros t Ht. rewrite tags_as_split in Ht. apply filter_In in Ht as (Ht & Hne).
    split; [now apply truthy_true|].
    now apply (split_comma_pieces (tags_csv n) EmptyString).
  - unfold tags. now intros ->.
Qed.

End TagsProperty.

(** ** Listing: selection and order *)

Section ListingOrder.

Variable le : Note -> Note -> bool.
Hypothesis le_total : forall a b, le a b = false -> le b a = true.

Lemma insert_by_Permutation (x : Note) (l : list Note) :
  Permutation (x :: l) (insert_by le x l).
Proof.
  induction l as [|y l IH]; simpl; [reflexivity|].
  destruct (le x y); [reflexivity|].
  rewrite perm_swap. now constructor.
Qed.

Lemma order_by_Permutation (l : list Note) : Permutation l (order_by le l).
Proof.
  induction l as [|x l IH]; simpl; [constructor|].
  rewrite <- insert_by_Permutation. now constructor.
Qed.

Lemma insert_by_Sorted (x : Note) (l : list Note) :
  Sorted (fun a b => le a b = true) l ->
  Sorted (fun a b => le a b = true) (insert_by le x l).
Proof.
  induction l as [|y l IH]; simpl; intros Hl.
  - repeat constructor.
  - destruct (le x y) eqn:E.
    + constructor; [exact Hl|now constructor].
    + inversion Hl as [|? ? Hl' Hd]; subst. constructor; [now apply IH|].
      destruct l as [|u l]; simpl.
      * constructor. now apply le_total.
      * destruct (le x u); constructor;
          [now apply le_total|now inversion Hd].
Qed.

Lemma order_by_Sorted (l : list Note) :
  Sorted (fun a b => le a b = true) (order_by le l).
Proof.
  induction l as [|x l IH]; simpl; [constructor|].
  now apply insert_by_Sorted.
Qed.

End ListingOrder.

Section ListingSelection.

Lemma str_le_trans (a b c : string) : str_le a b -> str_le b c -> str_le a c.
Proof.
  unfold str_le, String.leb. intros Hab Hbc.
  destruct (String.compare a b) eqn:Eab; try discriminate.
  - apply String.compare_eq_iff in Eab. now subst.
  - destruct (String.compare b c) eqn:Ebc; try discriminate.
    + apply String.compare_eq_iff in Ebc. subst. now rewrite Eab.
    + assert (H : str_lt a c) by (apply (str_lt_trans a b c);
        unfold str_lt, String.ltb; [now rewrite Eab|now rewrite Ebc]).
      unfold str_lt, String.ltb in H.
      destruct (String.compare a c); congruence.
Qed.

Lemma Sorted_weaken (R R' : Note -> Note -> Prop) (l : list Note) :
  Sorted R l -> (forall a b, R a b -> R' a b) -> Sorted R' l.
Proof.
  intros H HR. induction H as [|a l Hl IH Hd]; constructor; [exact IH|].
  destruct Hd; constructor. now apply HR.
Qed.

Lemma sort_key_total (sort : string) (a b : Note) :
  sort_key sort a b = false -> sort_key sort b a = true.
Proof.
  unfold sort_key.
  destruct (String.eqb sort "created"); [|destruct (String.eqb sort "title")].
  - rewrite Z.leb_gt, Z.leb_le. lia.
  - apply leb_not_true.
  - rewrite Z.leb_gt, Z.leb_le. lia.
Qed.

(** X5. With filters whose LIKE patterns the engine accepts (at most 50000
    bytes), [list_notes] leaves the world as it is and returns the selected
    rows, each once, in the order asked for: by [created_at], latest first,
    for the sort created; by title, ascending, for the sort title; by
    [updated_at], latest first, for any other sort. *)
Theorem list_notes_selected_in_order (w : world) (tag search : option string)
  (include_archived : bool) (sort : string) :
  fits (tag_pattern tag) = true -> fits (search_pattern search) = true ->
  exists l : list Note,
    list_notes tag search include_archived sort w = (Ok l, w)
    /\ Permutation (filter (listed tag search include_archived) (table w)) l
    /\ (sort = "created" ->
        StronglySorted (fun a b => created_at b <= created_at a) l)
    /\ (sort = "title" ->
        StronglySorted (fun a b => str_le (title a) (title b)) l)
    /\ (sort <> "created" -> sort <> "title" ->
        StronglySorted (fun a b => updated_at b <= updated_at a) l).
Proof.
  intros Hft Hfs.
  eexists. split; [now apply list_notes_run|].
  split; [apply order_by_Permutation|].
  pose proof (order_by_Sorted (sort_key sort) (sort_key_total sort)
                (filter (listed tag search include_archived) (table w))) as Hs.
  repeat split.
  - intros ->. apply Sorted_StronglySorted; [intros a b c Hab Hbc; lia|].
    apply (Sorted_weaken _ _ _ Hs). intros a b. unfold sort_key. simpl.
    apply Z.leb_le.
  - intros ->. apply Sorted_StronglySorted; [intros a b c; apply str_le_trans|].
    apply (Sorted_weaken _ _ _ Hs). intros a b. unfold sort_key. simpl.
    trivial.
  - intros Hc Ht. apply String.eqb_neq in Hc, Ht.
    apply Sorted_StronglySorted; [intros a b c Hab Hbc; lia|].
    apply (Sorted_weaken _ _ _ Hs). intros a b. unfold sort_key.
    rewrite Hc, Ht. apply Z.leb_le.
Qed.

Lemma list_notes_selected_in_order_witness :
  exists l : list Note,
    list_notes None None false "title" world_alpha_beta_gamma
    = (Ok l, world_alpha_beta_gamma)
    /\ StronglySorted (fun a b => str_le (title a) (title b)) l.
Proof.
  destruct (list_notes_selected_in_order world_alpha_beta_gamma None None
              false "title") as (l & He & _ & _ & Ht & _);
    [reflexivity|reflexivity|].
  exists l. split; [exact He|]. apply Ht. reflexivity.
Defined.

End ListingSelection.

(** ** Listing: the filters *)

Section ListingFilters.

Lemma list_notes_ext (w : world) (tag tag' search search' : option string)
  (ia ia' : bool) (sort : string) :
  (forall n, list_clause tag search ia n = list_clause tag' search' ia' n) ->
  list_notes tag search ia sort w = list_notes tag' search' ia' sort w.
Proof.
  intros H. unfold list_notes, session_scope, Session_exec, bind.
  now rewrite (select_rows_ext _ (list_clause tag' search' ia')).
Qed.

Lemma listed_sound (tag search : option string) (n : Note) :
  listed tag search false n = true -> archived n = false.
Proof.
  unfold listed, where_archived. simpl. destruct (archived n); [discriminate|trivial].
Qed.

Lemma list_notes_archived_visibility_all (w : world) (sort : string) :
  exists l, list_notes None None true sort w = (Ok l, w)
            /\ Permutation (table w) l.
Proof.
  eexists. split; [now apply list_notes_run|].
  rewrite <- order_by_Permutation.
  rewrite filter_all; [reflexivity|]. reflexivity.
Qed.

(** X6. Without [include_archived], and with filters whose LIKE patterns the
    engine accepts, [list_notes] returns only rows of the table that are
    not archived, whatever the filters and the sort; with it and without
    filters it returns every row of the table, each once. *)
Theorem list_notes_archived_visibility (w : world) (tag search : option string)
  (sort : string) :
  (fits (tag_pattern tag) = true -> fits (search_pattern search) = true ->
   exists l, list_notes tag search false sort w = (Ok l, w)
             /\ forall n, In n l -> In n (table w) /\ archived n = false)
  /\ (exists l, list_notes None None true sort w = (Ok l, w)
                /\ Permutation (table w) l).
Proof.
  split; [intros Hft Hfs|]; eexists; (split; [now apply list_notes_run|]).
  - intros n Hn. rewrite order_by_In in Hn. apply filter_In in Hn as (Hn & Hl).
    split; [exact Hn|]. now apply listed_sound in Hl.
  - rewrite <- order_by_Permutation.
    rewrite filter_all; [reflexivity|]. reflexivity.
Qed.

Lemma like_two_percent (s : string) : Sql.like "%%" s = true.
Proof.
  unfold Sql.like. change (Sql.upto_nul "%%") with (String "%" "%").
  rewrite like_any_run, like_percent. reflexivity.
Qed.

(** X7. A tag filter that is empty or blank filters nothing, and neither does an
    empty search: the result is the one without that filter. *)
Theorem list_notes_blank_filters (w : world) (tag : string)
  (search : option string) (include_archived : bool) (sort : string) :
  PyStr.strip tag = EmptyString ->
  list_notes (Some tag) search include_archived sort w
  = list_notes None search include_archived sort w
  /\ list_notes (Some tag) (Some EmptyString) include_archived sort w
     = list_notes None None include_archived sort w.
Proof.
  intros H.
  assert (Ht : forall n, tag_clause (Some tag) n = test true).
  { intros n. unfold tag_clause. rewrite H. simpl.
    destruct (PyStr.truthy tag); [|reflexivity].
    rewrite like_op_fits by reflexivity. now rewrite like_two_percent. }
  split; apply list_notes_ext; intros n; unfold list_clause; now rewrite Ht.
Qed.

Lemma list_notes_blank_filters_witness :
  list_notes (Some "   ") (Some "body") false "title" world_alpha_beta_gamma
  = list_notes None (Some "body") false "title" world_alpha_beta_gamma
  /\ list_notes (Some "   ") (Some EmptyString) false "title"
       world_alpha_beta_gamma
     = list_notes None None false "title" world_alpha_beta_gamma.
Proof.
  apply (list_notes_blank_filters world_alpha_beta_gamma "   "). reflexivity.
Defined.

(** X8. A non-empty search without [%], [_] and NUL, whose LIKE pattern the
    engine accepts (at most 50000 bytes, like that of the tag filter),
    selects, among the rows the other filters let through, exactly those
    whose title or content, read up to its first NUL, contains the search
    text, letters compared without regard to case; the search text is not
    trimmed. *)
Theorem list_notes_search_filter (w : world) (tag : option string)
  (q sort : string) (include_archived : bool) :
  PyStr.truthy q = true -> Sql.wildcard_free q = true ->
  Sql.nul_free q = true ->
  fits (tag_pattern tag) = true -> Sql.too_complex ("%" ++ q ++ "%") = false ->
  exists l : list Note,
    list_notes tag (Some q) include_archived sort w = (Ok l, w)
    /\ forall n, In n l <->
         In n (table w)
         /\ (include_archived = true \/ archived n = false)
         /\ where_tag tag n = true
         /\ (PyStr.contains (PyStr.lower q)
               (PyStr.lower (Sql.upto_nul (title n))) = true
             \/ PyStr.contains (PyStr.lower q)
                  (PyStr.lower (Sql.upto_nul (content n))) = true).
Proof.
  intros Hq Hw Hz Hft Hfs. eexists. split.
  - apply list_notes_run; [exact Hft|].
    unfold fits, search_pattern. now rewrite Hq, Hfs.
  - intros n. rewrite order_by_In, filter_In. unfold listed, where_search.
    rewrite Hq, !andb_true_iff, orb_true_iff, where_archived_iff.
    change (("%" ++ q ++ "%")%string) with (String "%" (q ++ "%")).
    rewrite !like_contains by assumption. tauto.
Qed.

Lemma list_notes_search_filter_witness :
  exists l : list Note,
    list_notes None (Some "KEYword") false "updated" world_alpha_beta_gamma
    = (Ok l, world_alpha_beta_gamma)
    /\ forall n, In n l <->
         In n (table world_alpha_beta_gamma)
         /\ (false = true \/ archived n = false)
         /\ where_tag None n = true
         /\ (PyStr.contains (PyStr.lower "KEYword")
               (PyStr.lower (Sql.upto_nul (title n))) = true
             \/ PyStr.contains (PyStr.lower "KEYword")
                  (PyStr.lower (Sql.upto_nul (content n))) = true).
Proof.
  apply (list_notes_search_filter world_alpha_beta_gamma None "KEYword");
    reflexivity.
Defined.



Lemma like_underscore (c : ascii) (p s : string) :
  Sql.is_percent c = false -> Sql.is_underscore c = true ->
  Sql.pattern_compare (String c p) s
  = match s with
    | EmptyString => false
    | String _ s' => Sql.pattern_compare p s'
    end.
Proof. intros H1 H2. simpl. rewrite H1, H2. reflexivity. Qed.








End ListingFilters.

(** ** What each operation does to the table *)

Section Runs.

Lemma create_note_run (w : world) (title_ content_ : string)
  (tags_ : option (list string)) :
  let n := mkNote (Some (next_rowid (table w))) title_ content_
             (PyStr.join "," (_normal_tags tags_)) false false
             (clock w (ticks w)) (clock w (S (ticks w))) in
  create_note title_ content_ tags_ w
  = (Ok n, mkWorld (table w ++ [n]) (clock w) (S (S (ticks w)))).
Proof.
  intros n.
  assert (Hn : with_id (Some (next_rowid (table w)))
                 (set_tags (Some (_normal_tags tags_))
                    (mkNote None title_ content_ EmptyString false false
                       (clock w (ticks w)) (clock w (S (ticks w))))) = n).
  { unfold with_id. rewrite set_tags_normal_csv.
    destruct (set_tags_frame (Some (_normal_tags tags_))
                (mkNote None title_ content_ EmptyString false false
                   (clock w (ticks w)) (clock w (S (ticks w)))))
      as (_ & -> & -> & -> & -> & -> & ->). reflexivity. }
  unfold create_note. run_monad. rewrite Hn.
  change (find (same_row n) (table w ++ [n]))
    with (find (has_id (next_rowid (table w))) (table w ++ [n])).
  rewrite find_app_miss; [reflexivity|apply next_rowid_fresh|].
  unfold has_id, n. simpl. apply Z.eqb_refl.
Qed.

(** The note [edit_note] writes for the row [n]. *)
Lemma edit_note_run (w : world) (i : identifier) (n : Note)
  (title_ content_ : option string) (tags_ : option (list string))
  (archived_ pinned_ : option bool) :
  resolve i (table w) = Ok (Some n) ->
  exists n' : Note,
    id n' = id n
    /\ edit_note i title_ content_ tags_ archived_ pinned_ w
       = (Ok n', with_table (rewritten n' (table w)) (ticked w)).
Proof.
  intros H.
  set (tags_list := match tags_ with
                    | None => None
                    | Some l => Some (_normal_tags (Some l))
                    end).
  set (n1 := assign tags_list (fun l => set_tags (Some l))
               (assign content_ with_content (assign title_ with_title n))).
  set (n' := with_updated_at (clock w (ticks w))
               (assign pinned_ with_pinned
                  (assign archived_ with_archived n1))).
  exists n'. split.
  - destruct (assign_tags_frame tags_list
                (assign content_ with_content (assign title_ with_title n)))
      as (Hid & _).
    fold n1 in Hid. unfold n'. destruct pinned_, archived_; simpl; rewrite Hid;
      destruct content_, title_; reflexivity.
  - unfold edit_note. fold tags_list. unfold session_scope at 1, bind at 1.
    rewrite get_note_spec, H. unfold bind at 1, Session_merge, ret at 1.
    fold n1. unfold bind at 1, now. cbn [table clock ticks]. fold n'.
    change (bind (Session_update n')
              (fun _ => bind (Session_refresh n') (fun note => ret note))
              (mkWorld (table w) (clock w) (S (ticks w))))
      with ((Session_update n' ;;; (r <- Session_refresh n' ;; ret r))
              (ticked w)).
    rewrite write_back. reflexivity.
Qed.

Lemma resolve_cases (i : identifier) (t : list Note) :
  (exists n, resolve i t = Ok (Some n))
  \/ (forall n, resolve i t <> Ok (Some n)).
Proof.
  destruct (resolve i t) as [[n|]|e]; [left; now exists n|right|right];
    intros n; discriminate.
Qed.

(** An operation whose identifier resolves to no note, or fails to resolve,
    leaves the world as it was. *)
Lemma missing_runs (w : world) (i : identifier)
  (title_ content_ : option string) (tags_ : option (list string))
  (archived_ pinned_ : option bool) (v hard : bool) :
  (forall n, resolve i (table w) <> Ok (Some n)) ->
  after (edit_note i title_ content_ tags_ archived_ pinned_) w = w
  /\ after (pin_note i v) w = w
  /\ after (archive_note i v) w = w
  /\ after (delete_note i hard) w = w.
Proof.
  intros H.
  unfold after, edit_note, pin_note, archive_note, delete_note,
    session_scope, bind, raise, ret.
  rewrite get_note_spec.
  destruct (resolve i (table w)) as [[n|]|e]; [now elim (H n)| |];
    simpl; rewrite world_eta; repeat split.
Qed.

Lemma get_note_Int_rewritten_In (w0 : world) (t : list Note) (n n' : Note)
  (k : Z) :
  In n t -> id n = Some k -> id n' = Some k ->
  get_note (Int k) (with_table (rewritten n' t) w0)
  = (Ok (Some n'), with_table (rewritten n' t) w0).
Proof.
  intros Hin Hn Hn'. rewrite get_note_spec. f_equal.
  apply resolve_Int_find. cbn [table with_table].
  now apply (find_rewritten n' n k).
Qed.

End Runs.

(** ** Flags, and notes left alone *)

Section Frames.

(** X10. Pinning changes the [pinned] flag and [updated_at] of the resolved note
    and nothing else of it, in particular not [archived]; archiving changes
    [archived] and [updated_at] and nothing else, in particular not
    [pinned].  The changed note is what a lookup by its id then returns. *)
Theorem pin_and_archive_are_independent (w : world) (i : identifier)
  (n : Note) (v : bool) :
  value (get_note i) w = Ok (Some n) ->
  let t := clock w (ticks w) in
  let p := mkNote (id n) (title n) (content n) (tags_csv n) v (archived n)
             (created_at n) t in
  let a := mkNote (id n) (title n) (content n) (tags_csv n) (pinned n) v
             (created_at n) t in
  pin_note i v w = (Ok p, with_table (rewritten p (table w)) (ticked w))
  /\ archive_note i v w = (Ok a, with_table (rewritten a (table w)) (ticked w))
  /\ (forall k, id n = Some k ->
        value (get_note (Int k)) (after (pin_note i v) w) = Ok (Some p)
        /\ value (get_note (Int k)) (after (archive_note i v) w) = Ok (Some a)).
Proof.
  intros H t p a. apply resolve_of_value in H.
  pose proof (pin_note_spec w i n v H) as Hp.
  pose proof (archive_note_spec w i n v H) as Ha.
  cbv zeta in Hp, Ha.
  change (with_updated_at (clock w (ticks w)) (with_pinned v n)) with p in Hp.
  change (with_updated_at (clock w (ticks w)) (with_archived v n)) with a in Ha.
  split; [exact Hp|split; [exact Ha|]].
  intros k Hk. unfold value, after. rewrite Hp, Ha. cbn [snd].
  pose proof (resolve_In _ _ _ H) as Hin.
  rewrite (get_note_Int_rewritten_In (ticked w) (table w) n p k),
          (get_note_Int_rewritten_In (ticked w) (table w) n a k);
    try (split; reflexivity); assumption.
Qed.

End Frames.

Section FramesMore.

Lemma pin_and_archive_are_independent_witness :
  value (pin_note (Str "draft") true) world_draft
  = Ok (mkNote (Some 1) "draft" "hello" "temp" true false 1000 1002)
  /\ value (archive_note (Str "draft") true) world_draft
     = Ok (mkNote (Some 1) "draft" "hello" "temp" false true 1000 1002).
Proof.
  destruct (pin_and_archive_are_independent world_draft (Str "draft")
              note_draft true) as (Hp & Ha & _); [reflexivity|].
  unfold value. rewrite Hp, Ha. split; reflexivity.
Defined.

(** X11. A soft delete and an archive leave the same world behind, whether or
    not the identifier resolves; they differ only in what they return or
    raise. *)
Theorem soft_delete_is_archive (w : world) (i : identifier) :
  after (delete_note i false) w = after (archive_note i true) w.
Proof.
  destruct (resolve_cases i (table w)) as [(n & H)|H].
  - unfold after. rewrite (delete_note_soft_spec w i n H).
    pose proof (archive_note_spec w i n true H) as Ha. cbv zeta in Ha.
    now rewrite Ha.
  - destruct (missing_runs w i None None None None None true false H)
      as (_ & _ & Ha & Hd). now rewrite Ha, Hd.
Qed.

Lemma has_id_other (n r : Note) (k' : Z) :
  same_row n r = true -> id n <> Some k' ->
  has_id k' n = false /\ has_id k' r = false.
Proof.
  unfold same_row, has_id. destruct (id n) as [k|]; [|discriminate].
  destruct (id r) as [j|]; [|discriminate]. intros E Hn.
  apply Z.eqb_eq in E. subst j.
  assert (Hk : (k =? k') = false) by (apply Z.eqb_neq; congruence).
  now rewrite Hk.
Qed.

Lemma by_id_rewritten_other (n : Note) (k' : Z) (t : list Note) :
  id n <> Some k' -> by_id k' (rewritten n t) = by_id k' t.
Proof.
  intros Hn. unfold by_id. destruct (int64 k'); [|reflexivity].
  induction t as [|r t IH]; simpl; [reflexivity|].
  destruct (same_row n r) eqn:E.
  - destruct (has_id_other n r k' E Hn) as (-> & ->). exact IH.
  - now rewrite IH.
Qed.

Lemma by_id_removed_other (n : Note) (k' : Z) (t : list Note) :
  id n <> Some k' -> by_id k' (removed n t) = by_id k' t.
Proof.
  intros Hn. unfold by_id. destruct (int64 k'); [|reflexivity].
  induction t as [|r t IH]; simpl; [reflexivity|].
  destruct (same_row n r) eqn:E; simpl.
  - destruct (has_id_other n r k' E Hn) as (_ & ->). exact IH.
  - now rewrite IH.
Qed.

(** X12. Editing, pinning, archiving or deleting a note, softly or for good,
    leaves the lookup by any other id as it was. *)
Theorem other_ids_untouched (w : world) (i : identifier) (n : Note) (k' : Z)
  (title_ content_ : option string) (tags_ : option (list string))
  (archived_ pinned_ : option bool) (v hard : bool) :
  value (get_note i) w = Ok (Some n) ->
  id n <> Some k' ->
  let same w' := by_id k' (table w') = by_id k' (table w) in
  same (after (edit_note i title_ content_ tags_ archived_ pinned_) w)
  /\ same (after (pin_note i v) w)
  /\ same (after (archive_note i v) w)
  /\ same (after (delete_note i hard) w).
Proof.
  intros H Hk same. apply resolve_of_value in H. unfold same, after.
  destruct (edit_note_run w i n title_ content_ tags_ archived_ pinned_ H)
    as (n' & Hid & ->).
  pose proof (pin_note_spec w i n v H) as Hp.
  pose proof (archive_note_spec w i n v H) as Ha.
  cbv zeta in Hp, Ha. rewrite Hp, Ha. cbn [snd table with_table ticked].
  repeat split.
  - apply by_id_rewritten_other. now rewrite Hid.
  - now apply by_id_rewritten_other.
  - now apply by_id_rewritten_other.
  - destruct hard.
    + rewrite (delete_note_hard_spec w i n H). now apply by_id_removed_other.
    + rewrite (delete_note_soft_spec w i n H). now apply by_id_rewritten_other.
Qed.

Lemma other_ids_untouched_witness :
  by_id 2 (table (after (delete_note (Int 1) true) world_A_B))
  = by_id 2 (table world_A_B)
  /\ by_id 2 (table (after (pin_note (Int 1) true) world_A_B))
     = by_id 2 (table world_A_B).
Proof.
  destruct (other_ids_untouched world_A_B (Int 1)
              (mkNote (Some 1) "A" "hello [[B]]" "alpha" false false 1000 1001)
              2 None None None None None true true)
    as (_ & Hp & _ & Hd); [reflexivity|discriminate|].
  split; [exact Hd|exact Hp].
Defined.

End FramesMore.

(** ** Ids stay present and distinct *)

Section Invariant.

Lemma same_row_id (n r : Note) : same_row n r = true -> id r = id n.
Proof.
  unfold same_row, has_id. destruct (id n) as [k|]; [|discriminate].
  destruct (id r) as [j|]; [|discriminate]. intros E.
  apply Z.eqb_eq in E. now subst.
Qed.

Lemma map_id_rewritten (n : Note) (t : list Note) :
  map id (rewritten n t) = map id t.
Proof.
  induction t as [|r t IH]; simpl; [reflexivity|]. rewrite IH. f_equal.
  destruct (same_row n r) eqn:E; [|reflexivity].
  symmetry. now apply same_row_id.
Qed.

Lemma wf_rewritten (n : Note) (t : list Note) :
  wf_table t -> wf_table (rewritten n t).
Proof.
  intros (Hs & Hd). split; [|now rewrite map_id_rewritten].
  rewrite Forall_forall in *. intros r Hr.
  apply in_map_iff in Hr as (x & <- & Hx).
  destruct (same_row n x) eqn:E; [|now apply Hs].
  rewrite <- (same_row_id n x E). now apply Hs.
Qed.

(** Removing rows keeps the remaining ids distinct. *)
Lemma ids_removed_NoDup (n : Note) (t : list Note) :
  NoDup (map id t) -> NoDup (map id (removed n t)).
Proof.
  unfold removed. induction t as [|r t IH]; intros Hd; cbn [filter map].
  - constructor.
  - apply NoDup_cons_iff in Hd as (Hr & Hd).
    destruct (negb (same_row n r)); [|now apply IH].
    cbn [map]. apply NoDup_cons_iff. split; [|now apply IH].
    contradict Hr. apply in_map_iff in Hr as (x & Ex & Hx).
    apply filter_In in Hx as (Hx & _).
    apply in_map_iff. now exists x.
Qed.

Lemma wf_removed (n : Note) (t : list Note) :
  wf_table t -> wf_table (removed n t).
Proof.
  intros (Hs & Hd). split; [|now apply ids_removed_NoDup].
  rewrite Forall_forall in *. intros r Hr. apply Hs.
  now apply removed_In in Hr.
Qed.

Lemma next_rowid_unused (t : list Note) :
  ~ In (Some (next_rowid t)) (map id t).
Proof.
  intros H. apply in_map_iff in H as (r & Hid & Hr).
  destruct (max_rowid_bound t r _ Hr Hid) as (m & Hm & Hle).
  unfold next_rowid in Hle. rewrite Hm in Hle. lia.
Qed.

Lemma wf_appended (t : list Note) (n : Note) :
  id n = Some (next_rowid t) -> wf_table t -> wf_table (t ++ [n]).
Proof.
  intros Hn (Hs & Hd). split.
  - apply Forall_app. split; [exact Hs|]. constructor; [|constructor].
    now rewrite Hn.
  - rewrite map_app. simpl.
    apply Permutation_NoDup with (l := id n :: map id t).
    + apply Permutation_cons_append.
    + constructor; [|exact Hd]. rewrite Hn. apply next_rowid_unused.
Qed.

(** X13. Every service function keeps the table well formed: each row has an
    id and no two rows share one, before and after, whatever the arguments
    and whether or not the identifier resolves. *)
Theorem wf_table_preserved (w : world) (i : identifier)
  (title_ content_ : string) (new_title new_content : option string)
  (tags_ new_tags : option (list string)) (archived_ pinned_ : option bool)
  (v hard : bool) :
  wf_table (table w) ->
  wf_table (table (after (create_note title_ content_ tags_) w))
  /\ wf_table (table (after (edit_note i new_title new_content new_tags
                               archived_ pinned_) w))
  /\ wf_table (table (after (delete_note i hard) w))
  /\ wf_table (table (after (pin_note i v) w))
  /\ wf_table (table (after (archive_note i v) w))
  /\ wf_table (table (after (restore_note i) w))
  /\ wf_table (table (after (purge_note i) w)).
Proof.
  intros Hwf. split.
  { unfold after. pose proof (create_note_run w title_ content_ tags_) as Hc.
    cbv zeta in Hc. rewrite Hc. cbn [snd table].
    now apply wf_appended. }
  unfold restore_note, purge_note.
  destruct (resolve_cases i (table w)) as [(n & H)|H].
  - unfold after.
    destruct (edit_note_run w i n new_title new_content new_tags archived_
                pinned_ H) as (n' & _ & ->).
    pose proof (pin_note_spec w i n v H) as Hp.
    pose proof (archive_note_spec w i n v H) as Ha.
    pose proof (archive_note_spec w i n false H) as Hr.
    cbv zeta in Hp, Ha, Hr. rewrite Hp, Ha, Hr.
    rewrite (delete_note_hard_spec w i n H).
    cbn [snd table with_table ticked].
    refine (conj _ (conj _ (conj _ (conj _ (conj _ _)))));
      try (now apply wf_rewritten); try (now apply wf_removed).
    destruct hard.
    + rewrite (delete_note_hard_spec w i n H). now apply wf_removed.
    + rewrite (delete_note_soft_spec w i n H). now apply wf_rewritten.
  - destruct (missing_runs w i new_title new_content new_tags archived_
                pinned_ v hard H) as (-> & -> & Ha & ->).
    destruct (missing_runs w i None None None None None false true H)
      as (_ & _ & -> & ->).
    rewrite Ha.
    refine (conj _ (conj _ (conj _ (conj _ (conj _ _))))); exact Hwf.
Qed.

Lemma wf_table_preserved_witness :
  wf_table (table (after (create_note "c" "d" None) world_A_B))
  /\ wf_table (table (after (purge_note (Int 1)) world_A_B)).
Proof.
  assert (Hwf : wf_table (table world_A_B)).
  { split.
    - repeat constructor; discriminate.
    - repeat constructor; simpl; intuition discriminate. }
  destruct (wf_table_preserved world_A_B (Int 1) "c" "d" None None None None
              None None true true Hwf) as (Hc & _ & _ & _ & _ & _ & Hp).
  split; [exact Hc|exact Hp].
Defined.

End Invariant.

(** ** Identifiers *)

Section Identifiers.

(** X15. A note returned by [get_note] is a row of the table, and it has either
    the id the numeric identifier denotes or exactly the title the
    identifier spells; [get_note] leaves the world as it is. *)
Theorem get_note_sound (w : world) (i : identifier) :
  after (get_note i) w = w
  /\ forall n, value (get_note i) w = Ok (Some n) ->
       In n (table w)
       /\ ((numeric i = true /\ id n = Some (int i)) \/ title n = str i).
Proof.
  unfold after, value. rewrite get_note_spec. split; [reflexivity|].
  intros n H. simpl in H. unfold resolve in H.
  destruct (numeric i).
  - destruct (find (has_id (int i)) (table w)) as [o|] eqn:E.
    + injection H as ->. apply find_has_id in E as (Hin & Hid). auto.
    + destruct (int64 (int i)); [|discriminate]. injection H as H.
      apply by_title_Some in H as (Hin & Ht). auto.
  - injection H as H. apply by_title_Some in H as (Hin & Ht). auto.
Qed.

Lemma find_app_last (k : Z) (t : list Note) (x : Note) :
  find (has_id k) (t ++ [x])
  = match find (has_id k) t with
    | Some r => Some r
    | None => if has_id k x then Some x else None
    end.
Proof.
  induction t as [|r t IH]; simpl; [reflexivity|].
  destruct (has_id k r); [reflexivity|exact IH].
Qed.

Lemma by_title_app_hit (s : string) (t : list Note) (x r : Note) :
  by_title s t = Some r -> by_title s (t ++ [x]) = Some r.
Proof.
  unfold by_title. rewrite filter_app.
  destruct (filter (fun n => String.eqb (title n) s) t); [discriminate|].
  trivial.
Qed.

(** X16. Creating a note does not change what an identifier that resolved
    resolves to, with one exception: a numeric identifier that resolved by
    title, and whose number is the id the new note receives, resolves to
    the new note afterwards. *)
Theorem create_note_keeps_resolution (w : world) (i : identifier) (n0 : Note)
  (title_ content_ : string) (tags_ : option (list string)) :
  value (get_note i) w = Ok (Some n0) ->
  let w' := after (create_note title_ content_ tags_) w in
  (int i <> next_rowid (table w) \/ numeric i = false
   \/ by_id (int i) (table w) = Some n0 ->
   value (get_note i) w' = Ok (Some n0))
  /\ (int i = next_rowid (table w) -> numeric i = true ->
      exists n, value (create_note title_ content_ tags_) w = Ok n
                /\ value (get_note i) w' = Ok (Some n)).
Proof.
  intros H w'. apply resolve_of_value in H.
  pose proof (create_note_run w title_ content_ tags_) as Hc. cbv zeta in Hc.
  unfold w', value, after. rewrite Hc, get_note_spec. cbn [fst snd table].
  set (n := mkNote (Some (next_rowid (table w))) title_ content_
              (PyStr.join "," (_normal_tags tags_)) false false
              (clock w (ticks w)) (clock w (S (ticks w)))).
  assert (Hn : forall k, has_id k n = Z.eqb (next_rowid (table w)) k)
    by reflexivity.
  unfold resolve in *. split.
  - intros Hcase. destruct (numeric i) eqn:Enum.
    + rewrite find_app_last, Hn.
      destruct (find (has_id (int i)) (table w)) as [o|] eqn:E; [exact H|].
      destruct (int64 (int i)); [|discriminate].
      destruct Hcase as [Hne|[Hf|Hf]]; try discriminate.
      * apply not_eq_sym, Z.eqb_neq in Hne. rewrite Hne.
        injection H as H. f_equal. now apply by_title_app_hit.
      * apply by_id_find in Hf as (_ & Hf). congruence.
    + injection H as H. f_equal. now apply by_title_app_hit.
  - intros Heq Hnum. exists n. split; [reflexivity|].
    rewrite Hnum, find_app_last, Hn, Heq, Z.eqb_refl, next_rowid_fresh.
    reflexivity.
Qed.

Lemma create_note_keeps_resolution_witness :
  value (get_note (Str "B"))
    (after (create_note "B" "again" None) world_A_B)
  = value (get_note (Str "B")) world_A_B.
Proof.
  destruct (create_note_keeps_resolution world_A_B (Str "B")
              (mkNote (Some 2) "B" "world" "beta" false false 1002 1003)
              "B" "again" None) as (H & _); [reflexivity|].
  rewrite H; [reflexivity|]. right. left. reflexivity.
Defined.

End Identifiers.

(** ** Ids given as decimal strings *)

Section DecimalIds.

Lemma int_digits_uint (d : uint) (acc : positive) :
  PyStr.int_digits (Z.pos acc) (NilEmpty.string_of_uint d)
  = Z.pos (Pos.of_uint_acc d acc).
Proof.
  revert acc. induction d; intros acc;
    cbn [NilEmpty.string_of_uint PyStr.int_digits Pos.of_uint_acc];
    try reflexivity; rewrite <- IHd; f_equal;
    match goal with
    | |- context [Z.of_N (N_of_ascii ?c)] =>
        let v := eval vm_compute in (Z.of_N (N_of_ascii c)) in
        change (Z.of_N (N_of_ascii c)) with v
    end; lia.
Qed.

Lemma int_digits_of_uint (d : uint) :
  PyStr.int_digits 0 (NilEmpty.string_of_uint d) = Z.of_N (Pos.of_uint d).
Proof.
  induction d;
    cbn [NilEmpty.string_of_uint PyStr.int_digits Pos.of_uint Z.of_N];
    try reflexivity; try exact IHd; apply (int_digits_uint d).
Qed.

Lemma digits_of_uint (d : uint) :
  PyStr.all_chars PyStr.isdigit_char (NilEmpty.string_of_uint d) = true.
Proof. induction d; simpl; try reflexivity; exact IHd. Qed.

Lemma str_of_nonneg (k : Z) :
  0 <= k ->
  PyStr.isdigit (PyStr.str_of_int k) = true
  /\ PyStr.int_of_str (PyStr.str_of_int k) = k.
Proof.
  intros Hk. destruct k as [|p|p]; [split; reflexivity| |lia].
  unfold PyStr.str_of_int, PyStr.int_of_str, PyStr.isdigit. simpl Z.to_int.
  unfold NilZero.string_of_int, NilZero.string_of_uint.
  pose proof (Unsigned.to_uint_nonnil p) as Hnil.
  destruct (Pos.to_uint p) as [|d|d|d|d|d|d|d|d|d|d] eqn:E;
    try congruence; rewrite <- E;
    (split;
     [rewrite digits_of_uint; rewrite E; reflexivity
     |rewrite int_digits_of_uint, DecimalPos.Unsigned.of_to; reflexivity]).
Qed.

Lemma get_note_of_decimal (w : world) (k : Z) :
  0 <= k ->
  get_note (Str (PyStr.str_of_int k)) w = get_note (Int k) w.
Proof.
  intros Hk. destruct (str_of_nonneg k Hk) as (Hd & Hi).
  rewrite !get_note_spec. unfold resolve, numeric. cbn [isinstance_int str int].
  now rewrite Hd, Hi.
Qed.



End DecimalIds.

(** ** After a purge *)

Section Purged.

(** X18. Once a note is purged by its id, and provided no note is titled with
    that id's decimal form, the id resolves to nothing: a second purge or
    delete changes nothing, and edit, pin, archive and restore raise the
    not-found error and change nothing. *)
Theorem purge_is_terminal (w : world) (k : Z) (n : Note)
  (title_ content_ : option string) (tags_ : option (list string))
  (archived_ pinned_ : option bool) (v hard : bool) :
  by_id k (table w) = Some n ->
  (forall r, In r (table w) -> title r <> str (Int k)) ->
  let w1 := after (purge_note (Int k)) w in
  value (get_note (Int k)) w1 = Ok None
  /\ after (purge_note (Int k)) w1 = w1
  /\ after (delete_note (Int k) hard) w1 = w1
  /\ edit_note (Int k) title_ content_ tags_ archived_ pinned_ w1
     = (Raise (NotFoundError (Int k)), w1)
  /\ pin_note (Int k) v w1 = (Raise (NotFoundError (Int k)), w1)
  /\ archive_note (Int k) v w1 = (Raise (NotFoundError (Int k)), w1)
  /\ restore_note (Int k) w1 = (Raise (NotFoundError (Int k)), w1).
Proof.
  intros H Hno w1.
  pose proof (resolve_Int_hit k (table w) n H) as Hr.
  destruct (by_id_Some k (table w) n H) as (Hin & Hid).
  assert (Hw1 : w1 = with_table (removed n (table w)) w).
  { unfold w1, after, purge_note. now rewrite (delete_note_hard_spec w (Int k) n Hr). }
  assert (Hnone : resolve (Int k) (table w1) = Ok None).
  { destruct (by_id_find k (table w) n H) as (Hk & _).
    rewrite Hw1. cbn [table with_table]. unfold resolve.
    cbn [numeric isinstance_int orb int].
    rewrite (find_removed n k) by exact Hid. rewrite Hk. f_equal.
    apply by_title_None. intros r Hr'. apply Hno. now apply removed_In in Hr'. }
  assert (Hmiss : forall m, resolve (Int k) (table w1) <> Ok (Some m))
    by (intros m; rewrite Hnone; discriminate).
  destruct (missing_runs w1 (Int k) None None None None None true true Hmiss)
    as (_ & _ & _ & Hp).
  destruct (missing_runs w1 (Int k) None None None None None true hard Hmiss)
    as (_ & _ & _ & Hd).
  refine (conj _ (conj Hp (conj Hd _))).
  - unfold value. now rewrite get_note_spec, Hnone.
  - unfold restore_note, edit_note, pin_note, archive_note,
      session_scope, bind, raise, ret.
    rewrite get_note_spec, Hnone. simpl. rewrite world_eta. repeat split.
Qed.

Lemma purge_is_terminal_witness :
  let w1 := after (purge_note (Int 1)) world_A_B in
  value (get_note (Int 1)) w1 = Ok None
  /\ after (purge_note (Int 1)) w1 = w1
  /\ restore_note (Int 1) w1 = (Raise (NotFoundError (Int 1)), w1).
Proof.
  intros w1.
  destruct (purge_is_terminal world_A_B 1
              (mkNote (Some 1) "A" "hello [[B]]" "alpha" false false 1000 1001)
              None None None None None true true)
    as (Hg & Hp & _ & _ & _ & _ & Hr); [reflexivity| |].
  - intros r [<-|[<-|[]]]; discriminate.
  - repeat split; assumption.
Defined.

(** Where a note is titled with the decimal form of a purged id, the second
    purge of that id removes that note. *)
Example purge_twice_removes_titled_note :
  map title (table world_x_1) = ["x"; "1"]
  /\ map title (table (after (purge_note (Int 1)) world_x_1)) = ["1"]
  /\ table (after (purge_note (Int 1))
              (after (purge_note (Int 1)) world_x_1)) = [].
Proof. repeat split. Qed.

End Purged.

(** ** Link extraction, in general *)

Section LinksGeneral.

Lemma all_chars_lstrip (p : ascii -> bool) (s : string) :
  PyStr.all_chars p s = true -> PyStr.all_chars p (PyStr.lstrip s) = true.
Proof.
  induction s as [|c s IH]; simpl; [trivial|].
  intros H. destruct (PyStr.isspace c); [|exact H].
  apply andb_true_iff in H as (_ & H). now apply IH.
Qed.

Lemma all_chars_rstrip (p : ascii -> bool) (s : string) :
  PyStr.all_chars p s = true -> PyStr.all_chars p (PyStr.rstrip s) = true.
Proof.
  induction s as [|c s IH]; simpl; [trivial|].
  intros H. apply andb_true_iff in H as (Hc & Hs). specialize (IH Hs).
  destruct (PyStr.rstrip s) as [|d r].
  - destruct (PyStr.isspace c); simpl; [reflexivity|now rewrite Hc].
  - simpl. rewrite Hc. exact IH.
Qed.

Lemma span_class_spec (s g r : string) :
  BACKLINK_RE.span_class s = (g, r) ->
  s = (g ++ r)%string /\ no_rbracket g = true.
Proof.
  revert g r. induction s as [|c s IH]; intros g r; simpl.
  - intros [= <- <-]. split; reflexivity.
  - destruct (BACKLINK_RE.is_rbracket c) eqn:E.
    + intros [= <- <-]. split; reflexivity.
    + destruct (BACKLINK_RE.span_class s) as (g0, r0).
      intros [= <- <-]. destruct (IH g0 r0 eq_refl) as (-> & Hg).
      split; [reflexivity|]. unfold no_rbracket. simpl. rewrite E. exact Hg.
Qed.

Lemma match_at_spec (s g : string) (len : nat) :
  BACKLINK_RE.match_at s = Some (g, len) ->
  g <> EmptyString /\ no_rbracket g = true
  /\ len = (4 + String.length g)%nat
  /\ exists post, s = ("[[" ++ g ++ "]]" ++ post)%string.
Proof.
  unfold BACKLINK_RE.match_at.
  destruct s as [|c1 [|c2 s1]]; try discriminate.
  destruct (BACKLINK_RE.is_lbracket c1) eqn:E1; [|discriminate].
  destruct (BACKLINK_RE.is_lbracket c2) eqn:E2; [|discriminate].
  cbn [andb].
  destruct (BACKLINK_RE.span_class s1) as (g0, r0) eqn:Es.
  apply span_class_spec in Es as (-> & Hg).
  destruct g0 as [|x g0]; [discriminate|].
  destruct r0 as [|d1 [|d2 post]]; try discriminate.
  destruct (BACKLINK_RE.is_rbracket d1) eqn:F1; [|discriminate].
  destruct (BACKLINK_RE.is_rbracket d2) eqn:F2; [|discriminate].
  cbn [andb]. intros [= <- <-].
  apply Ascii.eqb_eq in E1, E2, F1, F2. subst.
  repeat split; [discriminate|exact Hg|]. now exists post.
Qed.

(** Every group found comes from a marker that stands in the text. *)
Lemma finditer_from_sound (s g : string) (k : nat) :
  In g (BACKLINK_RE.finditer_from k s) ->
  g <> EmptyString /\ no_rbracket g = true
  /\ exists pre post, s = (pre ++ "[[" ++ g ++ "]]" ++ post)%string.
Proof.
  revert k. induction s as [|c s IH]; intros k; [intros []|].
  assert (Hshift : forall k',
             In g (BACKLINK_RE.finditer_from k' s) ->
             g <> EmptyString /\ no_rbracket g = true
             /\ exists pre post,
                  String c s = (pre ++ "[[" ++ g ++ "]]" ++ post)%string).
  { intros k' H. destruct (IH k' H) as (H1 & H2 & pre & post & ->).
    repeat split; try assumption. now exists (String c pre), post. }
  cbn [BACKLINK_RE.finditer_from]. destruct k as [|k]; [|apply Hshift].
  destruct (BACKLINK_RE.match_at (String c s)) as [[g0 len]|] eqn:E;
    [|apply Hshift].
  intros [<-|H]; [|now apply (Hshift _ H)].
  apply match_at_spec in E as (H1 & H2 & _ & post & E).
  repeat split; try assumption. now exists EmptyString, post.
Qed.

Lemma extract_links_In (c l : string) :
  In l (extract_links (Some c)) <->
  exists g, In g (BACKLINK_RE.finditer c) /\ l = PyStr.strip g.
Proof.
  unfold extract_links. destruct c as [|x c].
  - split; [intros []|intros (g & [] & _)].
  - rewrite sorted_In. unfold PyStr.set_of. rewrite nodup_In, in_map_iff.
    split; intros (g & H1 & H2); exists g; auto.
Qed.

(** X19. Every extracted link is the trimmed inside of a marker that stands in
    the content: two opening brackets, a non-empty run without a closing
    bracket, two closing brackets. *)
Theorem extract_links_sound (c l : string) :
  In l (extract_links (Some c)) ->
  exists g pre post,
    l = PyStr.strip g /\ g <> EmptyString /\ no_rbracket g = true
    /\ c = (pre ++ "[[" ++ g ++ "]]" ++ post)%string.
Proof.
  intros H. apply extract_links_In in H as (g & Hg & ->).
  apply finditer_from_sound in Hg as (H1 & H2 & pre & post & E).
  now exists g, pre, post.
Qed.

Lemma extract_links_sound_witness :
  exists g pre post,
    "B" = PyStr.strip g /\ g <> EmptyString /\ no_rbracket g = true
    /\ "hello [[ B ]] there" = (pre ++ "[[" ++ g ++ "]]" ++ post)%string.
Proof.
  apply (extract_links_sound "hello [[ B ]] there" "B"). simpl. now left.
Defined.

(** X20. The list of links is in strictly increasing order, so without
    duplicates; each link is trimmed and has no closing bracket; there is
    no link in an absent or empty content. *)
Theorem extract_links_canonical (content_ : option string) :
  StronglySorted str_lt (extract_links content_)
  /\ (forall l, In l (extract_links content_) ->
        PyStr.strip l = l /\ no_rbracket l = true)
  /\ extract_links None = []
  /\ extract_links (Some EmptyString) = [].
Proof.
  split; [|split; [|split; reflexivity]].
  - destruct content_ as [[|x c]|]; try constructor.
    apply Sorted_strongly, Sorted_strict;
      [apply sorted_Sorted|apply sorted_NoDup, NoDup_nodup].
  - intros l H. destruct content_ as [c|]; [|destruct H].
    apply extract_links_In in H as (g & Hg & ->).
    split; [apply strip_idem|].
    apply finditer_from_sound in Hg as (_ & H2 & _).
    now apply all_chars_rstrip, all_chars_lstrip.
Qed.

End LinksGeneral.

(** ** Literal markers are always found *)

Section LiteralMarkers.

Lemma lower_char_eqb_refl (c : ascii) :
  Ascii.eqb (PyStr.lower_char c) (PyStr.lower_char c) = true.
Proof. apply Ascii.eqb_refl. Qed.

(** A pattern followed by [%] matches every text that starts with the
    pattern's own characters, wildcards or not. *)
Lemma like_own_prefix (x post : string) :
  Sql.pattern_compare (x ++ "%") (x ++ post) = true.
Proof.
  induction x as [|c x IH].
  - apply like_percent.
  - change ((String c x ++ "%")%string) with (String c (x ++ "%")).
    change ((String c x ++ post)%string) with (String c (x ++ post)).
    destruct (Sql.is_percent c) eqn:Ep.
    + unfold Sql.is_percent in Ep. apply Ascii.eqb_eq in Ep. subst c.
      rewrite like_any_run.
      rewrite (like_any_run (x ++ "%") (x ++ post)), IH.
      apply orb_true_r.
    + destruct (Sql.is_underscore c) eqn:Eu.
      * rewrite like_underscore by assumption. exact IH.
      * rewrite like_char by assumption.
        now rewrite lower_char_eqb_refl, IH.
Qed.

Lemma like_own_infix (x pre post : string) :
  Sql.pattern_compare (String "%" (x ++ "%")) (pre ++ x ++ post) = true.
Proof.
  induction pre as [|c pre IH].
  - rewrite like_any_run. simpl String.append. now rewrite like_own_prefix.
  - rewrite like_any_run.
    change ((String c pre ++ x ++ post)%string)
      with (String c (pre ++ x ++ post)).
    cbv beta iota. rewrite IH. apply orb_true_r.
Qed.

Lemma upto_nul_app (a b : string) :
  Sql.nul_free a = true ->
  Sql.upto_nul (a ++ b) = (a ++ Sql.upto_nul b)%string.
Proof.
  unfold Sql.nul_free. induction a as [|c a IH]; simpl; [reflexivity|].
  intros H. apply andb_true_iff in H as (Hc & Ha).
  apply negb_true_iff in Hc. now rewrite Hc, IH.
Qed.

(** X22. For a target whose title has no NUL and whose LIKE pattern the
    engine accepts (at most 50000 bytes), a stored note whose content
    contains, with no NUL before it, the target's title in double brackets,
    character for character, is among the backlinks of the target (if it
    is not archived, or archived notes are asked for), whatever other
    characters the title is made of. *)
Theorem backlinks_for_finds_literal_markers (w : world) (i : identifier)
  (target n : Note) (include_archived : bool) (pre post : string) :
  value (get_note i) w = Ok (Some target) ->
  Sql.too_complex ("%[[" ++ title target ++ "]]%") = false ->
  Sql.nul_free (title target) = true ->
  Sql.nul_free pre = true ->
  In n (table w) ->
  include_archived = true \/ archived n = false ->
  content n = (pre ++ ("[[" ++ title target ++ "]]") ++ post)%string ->
  exists l, backlinks_for i include_archived w = (Ok l, w) /\ In n l.
Proof.
  intros H Hfit Hz Hpre Hin Ha Hc. apply resolve_of_value in H.
  eexists. split; [exact (backlinks_for_hit w i target include_archived H Hfit)|].
  apply filter_In. split; [exact Hin|].
  apply andb_true_iff. split; [now apply where_archived_iff|].
  assert (Hm : Sql.nul_free ("[[" ++ title target ++ "]]") = true)
    by now rewrite nul_free_marker.
  rewrite backlink_pattern, Hc, like_nul_free_pattern.
  - rewrite upto_nul_app by exact Hpre. rewrite upto_nul_app by exact Hm.
    apply like_own_infix.
  - change (String "%" (("[[" ++ title target ++ "]]") ++ "%"))
      with (("%" ++ ("[[" ++ title target ++ "]]") ++ "%")%string).
    rewrite (nul_free_app "%"), (nul_free_app ("[[" ++ title target ++ "]]")).
    now rewrite Hm.
Qed.

Lemma backlinks_for_finds_literal_markers_witness :
  exists l,
    backlinks_for (Str "a_c") false world_a_c_linked
    = (Ok l, world_a_c_linked)
    /\ In (mkNote (Some 2) "L" "see [[a_c]] here" EmptyString false false
             1002 1003) l.
Proof.
  apply (backlinks_for_finds_literal_markers world_a_c_linked (Str "a_c")
           (mkNote (Some 1) "a_c" EmptyString EmptyString false false
              1000 1001)
           (mkNote (Some 2) "L" "see [[a_c]] here" EmptyString false false
              1002 1003)
           false "see " " here").
  - reflexivity.
  - reflexivity.
  - reflexivity.
  - reflexivity.
  - simpl. right. now left.
  - now right.
  - reflexivity.
Defined.

End LiteralMarkers.

Section FirstMarker.

Lemma match_at_no_lbracket (c : ascii) (s : string) :
  BACKLINK_RE.is_lbracket c = false ->
  BACKLINK_RE.match_at (String c s) = None.
Proof.
  intros H. unfold BACKLINK_RE.match_at. destruct s; [reflexivity|].
  now rewrite H.
Qed.

Lemma finditer_skips_plain (pre rest : string) :
  no_lbracket pre = true ->
  BACKLINK_RE.finditer_from 0 (pre ++ rest)
  = BACKLINK_RE.finditer_from 0 rest.
Proof.
  induction pre as [|c pre IH]; intros H; [reflexivity|].
  unfold no_lbracket in H. simpl in H. apply andb_true_iff in H as (Hc & Hp).
  apply negb_true_iff in Hc.
  change ((String c pre ++ rest)%string) with (String c (pre ++ rest)).
  cbn [BACKLINK_RE.finditer_from].
  rewrite (match_at_no_lbracket c _ Hc). now apply IH.
Qed.

Lemma span_class_run (g rest : string) :
  no_rbracket g = true ->
  BACKLINK_RE.span_class (g ++ String "]" rest) = (g, String "]" rest).
Proof.
  induction g as [|c g IH]; simpl; intros H; [reflexivity|].
  unfold no_rbracket in H. simpl in H. apply andb_true_iff in H as (Hc & Hg).
  apply negb_true_iff in Hc. now rewrite Hc, (IH Hg).
Qed.

Lemma match_at_marker (g post : string) :
  g <> EmptyString -> no_rbracket g = true ->
  BACKLINK_RE.match_at ("[[" ++ g ++ "]]" ++ post)
  = Some (g, (4 + String.length g)%nat).
Proof.
  intros Hne Hg.
  change (("[[" ++ g ++ "]]" ++ post)%string)
    with (String "[" (String "[" (g ++ String "]" (String "]" post)))).
  cbn [BACKLINK_RE.match_at].
  change (BACKLINK_RE.is_lbracket "[") with true. cbn [andb].
  rewrite (span_class_run g _ Hg).
  destruct g as [|c g]; [congruence|].
  change (BACKLINK_RE.is_rbracket "]") with true. reflexivity.
Qed.

(** X21. The first marker of a content is always extracted: after a text without
    an opening bracket, two opening brackets, a non-empty run without a
    closing bracket and two closing brackets give the trimmed run as a
    link, whatever follows. *)
Theorem extract_links_first_marker (pre g post : string) :
  no_lbracket pre = true -> g <> EmptyString -> no_rbracket g = true ->
  In (PyStr.strip g)
     (extract_links (Some (pre ++ "[[" ++ g ++ "]]" ++ post))).
Proof.
  intros Hpre Hne Hg. apply extract_links_In. exists g. split; [|reflexivity].
  unfold BACKLINK_RE.finditer. rewrite finditer_skips_plain by exact Hpre.
  change (("[[" ++ g ++ "]]" ++ post)%string)
    with (String "[" (String "[" (g ++ String "]" (String "]" post)))).
  cbn [BACKLINK_RE.finditer_from].
  change (String "[" (String "[" (g ++ String "]" (String "]" post))))
    with (("[[" ++ g ++ "]]" ++ post)%string).
  rewrite (match_at_marker g post Hne Hg). now left.
Qed.

Lemma extract_links_first_marker_witness :
  In (PyStr.strip " Target Title ")
     (extract_links (Some ("see " ++ "[[" ++ " Target Title " ++ "]]"
                           ++ " and [[more]]"))).
Proof.
  apply extract_links_first_marker; [reflexivity|discriminate|reflexivity].
Defined.

End FirstMarker.

(** * The callers: command line and HTTP handlers *)

(** ** Tags given on the command line *)

Section CliTags.

Lemma split_no_comma (s : string) :
  Forall (fun u => no_comma u = true) (Cli.split s).
Proof.
  apply Forall_forall. intros x Hx.
  now apply (split_comma_pieces s EmptyString).
Qed.

Lemma edit_note_run_tags (w : world) (i : identifier) (n : Note)
  (title_ content_ : option string) (l : list string)
  (archived_ pinned_ : option bool) :
  resolve i (table w) = Ok (Some n) ->
  exists n' : Note,
    id n' = id n
    /\ tags_csv n' = PyStr.join "," (_normal_tags (Some l))
    /\ title n' = match title_ with Some v => v | None => title n end
    /\ edit_note i title_ content_ (Some l) archived_ pinned_ w
       = (Ok n', with_table (rewritten n' (table w)) (ticked w)).
Proof.
  intros H.
  set (n1 := assign (Some (_normal_tags (Some l))) (fun l => set_tags (Some l))
               (assign content_ with_content (assign title_ with_title n))).
  set (n' := with_updated_at (clock w (ticks w))
               (assign pinned_ with_pinned
                  (assign archived_ with_archived n1))).
  destruct (assign_tags_frame (Some (_normal_tags (Some l)))
              (assign content_ with_content (assign title_ with_title n)))
    as (Hid & Hti & _).
  fold n1 in Hid, Hti.
  exists n'. split; [|split; [|split]].
  - unfold n'. destruct pinned_, archived_; simpl; rewrite Hid;
      destruct content_, title_; reflexivity.
  - assert (Ht : tags_csv n' = tags_csv n1)
      by (unfold n'; destruct pinned_, archived_; reflexivity).
    rewrite Ht. unfold n1. cbn [assign]. apply set_tags_normal_csv.
  - unfold n'. destruct pinned_, archived_; simpl; rewrite Hti;
      destruct content_, title_; reflexivity.
  - unfold edit_note. unfold session_scope at 1, bind at 1.
    rewrite get_note_spec, H. unfold bind at 1, Session_merge, ret at 1.
    fold n1. unfold bind at 1, now. cbn [table clock ticks]. fold n'.
    change (bind (Session_update n')
              (fun _ => bind (Session_refresh n') (fun note => ret note))
              (mkWorld (table w) (clock w) (S (ticks w))))
      with ((Session_update n' ;;; (r <- Session_refresh n' ;; ret r))
              (ticked w)).
    rewrite write_back. reflexivity.
Qed.

(** X23. The tags of a note added or edited from the command line, read back
    through the [tags] property, are exactly the normalized pieces of the
    comma-separated option; without the option, [add] stores no tag.  The
    note added is the last row of the table, the note edited is what a
    lookup by its id returns. *)
Theorem cli_tags_round_trip (w : world) (title_ content_ : string)
  (tags_ : option string) :
  (exists n msg,
     Cli.add title_ content_ tags_ w
     = (Ok msg, mkWorld (table w ++ [n]) (clock w) (S (S (ticks w))))
     /\ title n = title_
     /\ tags n = _normal_tags (Some (Cli.split (Cli.or_empty tags_)))
     /\ (tags_ = None -> tags n = []))
  /\ (forall identifier_ n t new_title new_content pin_ archive_ k,
        value (get_note (Str identifier_)) w = Ok (Some n) ->
        id n = Some k ->
        exists n',
          value (get_note (Int k))
            (after (Cli.edit identifier_ new_title new_content (Some t)
                      pin_ archive_) w) = Ok (Some n')
          /\ tags n' = _normal_tags (Some (Cli.split t))).
Proof.
  split.
  - pose proof (create_note_run w title_ content_
                  (Some (Cli.split (Cli.or_empty tags_)))) as Hc.
    cbv zeta in Hc. eexists. eexists. unfold Cli.add, bind. rewrite Hc.
    split; [reflexivity|]. split; [reflexivity|].
    assert (Ht : forall s n,
               tags_csv n = PyStr.join "," (_normal_tags (Some (Cli.split s))) ->
               tags n = _normal_tags (Some (Cli.split s))).
    { intros s n E. apply tags_of_csv; [|apply normal_tags_truthy|exact E].
      apply normal_tags_no_comma, split_no_comma. }
    split; [apply (Ht (Cli.or_empty tags_)); reflexivity|].
    intros ->. rewrite (Ht EmptyString); reflexivity.
  - intros identifier_ n t new_title new_content pin_ archive_ k H Hk.
    apply resolve_of_value in H.
    destruct (edit_note_run_tags w (Str identifier_) n new_title new_content
                (Cli.split t) archive_ pin_ H) as (n' & Hid & Hcsv & _ & He).
    exists n'. unfold value, after, Cli.edit, bind. rewrite He.
    unfold ret. cbn [snd].
    rewrite (get_note_Int_rewritten_In (ticked w) (table w) n n' k);
      [|now apply resolve_In in H|exact Hk|now rewrite Hid].
    split; [reflexivity|].
    apply tags_of_csv; [|apply normal_tags_truthy|exact Hcsv].
    apply normal_tags_no_comma, split_no_comma.
Qed.

Lemma cli_tags_round_trip_witness :
  exists n',
    value (get_note (Int 1))
      (after (Cli.edit "draft" None None (Some "Work, ideas ,,work") None None)
         world_draft) = Ok (Some n')
    /\ tags n' = _normal_tags (Some (Cli.split "Work, ideas ,,work")).
Proof.
  destruct (cli_tags_round_trip world_draft "t" "c" None) as (_ & H).
  apply (H "draft" note_draft "Work, ideas ,,work" None None None None 1);
    reflexivity.
Defined.

End CliTags.

(** ** Export, then import *)

Section ExportImport.

Lemma imported_from_created (n : Note) (k : Z) (c u : datetime) :
  imported_from n
    (mkNote (Some k) (title n) (content n)
       (PyStr.join "," (_normal_tags (Some (tags n)))) false false c u).
Proof.
  repeat split. intros l Hl E. cbn [tags_csv].
  assert (Ht : tags n = _normal_tags (Some l)).
  { apply tags_of_csv; [|apply normal_tags_truthy|exact E].
    now apply normal_tags_no_comma. }
  rewrite Ht, E. f_equal. apply normal_tags_fixed.
  - apply normal_tags_normal.
  - apply normal_tags_NoDup.
  - apply normal_tags_Sorted.
Qed.

Lemma import_items_run (l : list Note) (w0 : world) :
  exists added,
    Cli.import_items (map Cli.entry_of l) w0
    = (Ok tt, mkWorld ((table w0 ++ added)%list) (clock w0)
                (ticks w0 + 2 * List.length l))
    /\ Forall2 imported_from l added.
Proof.
  revert w0. induction l as [|n l IH]; intros w0.
  - exists []. split; [|constructor].
    simpl. unfold ret. rewrite app_nil_r, Nat.add_0_r. now destruct w0.
  - pose proof (create_note_run w0 (title n) (content n) (Some (tags n))) as Hc.
    cbv zeta in Hc.
    set (a := mkNote (Some (next_rowid (table w0))) (title n) (content n)
                (PyStr.join "," (_normal_tags (Some (tags n)))) false false
                (clock w0 (ticks w0)) (clock w0 (S (ticks w0)))) in *.
    destruct (IH (mkWorld (table w0 ++ [a]) (clock w0) (S (S (ticks w0)))))
      as (added & He & Hf).
    exists (a :: added). split; [|constructor; [apply imported_from_created|exact Hf]].
    cbn [map Cli.import_items Cli.entry_of Cli.e_title Cli.e_content Cli.e_tags].
    unfold bind at 1. rewrite Hc, He. cbn [table clock ticks].
    rewrite <- app_assoc. simpl app. do 2 f_equal. simpl List.length. lia.
Qed.

(** X24. Importing what was exported adds, for each note of the exporting table
    (archived ones included), one note with the same title and content,
    with the tags that were read back normalized again (the same stored
    tags when those came from comma-free tags), and always unpinned and
    unarchived; the rows that were there before stay in place. *)
Theorem import_of_export (w w0 : world) :
  exists exported added,
    Cli.export w = (Ok (map Cli.entry_of exported), w)
    /\ Permutation (table w) exported
    /\ table (after (Cli.import_ (map Cli.entry_of exported)) w0)
       = (table w0 ++ added)%list
    /\ Forall2 imported_from exported added.
Proof.
  destruct (list_notes_archived_visibility_all w "updated") as (l & Hl & Hp).
  exists l. destruct (import_items_run l w0) as (added & He & Hf).
  exists added. split; [|split; [exact Hp|split; [|exact Hf]]].
  - unfold Cli.export, bind. now rewrite Hl.
  - unfold after, Cli.import_, bind. now rewrite He.
Qed.

End ExportImport.

(** ** The HTTP handlers *)

Section Handlers.



(** X26. A note created through the API is the answer to a GET on its id,
    written in decimal as the path segment: the same id, title, content,
    tags, flags and timestamps as the create handler returned. *)
Theorem api_create_then_get (w : world) (payload : Api.NoteCreate) :
  0 <= next_rowid (table w) ->
  exists out w',
    Api.api_create_note payload w = (inl out, w')
    /\ Api.out_id out = next_rowid (table w)
    /\ Api.out_title out = Api.create_title payload
    /\ Api.out_content out = Api.create_content payload
    /\ Api.out_pinned out = false /\ Api.out_archived out = false
    /\ Api.api_get_note (PyStr.str_of_int (Api.out_id out)) w' = (inl out, w').
Proof.
  intros Hk.
  pose proof (create_note_run w (Api.create_title payload)
                (Api.create_content payload)
                (Some (Api.create_tags payload))) as Hc.
  cbv zeta in Hc.
  set (n := mkNote (Some (next_rowid (table w))) (Api.create_title payload)
              (Api.create_content payload)
              (PyStr.join "," (_normal_tags (Some (Api.create_tags payload))))
              false false (clock w (ticks w)) (clock w (S (ticks w)))) in *.
  set (w' := mkWorld (table w ++ [n]) (clock w) (S (S (ticks w)))) in *.
  eexists. exists w'. unfold Api.api_create_note. rewrite Hc.
  unfold Api.respond, Api._to_out. cbn [id n].
  split; [reflexivity|]. cbn [Api.out_id Api.out_title Api.out_content
                               Api.out_pinned Api.out_archived].
  repeat split.
  unfold Api.api_get_note, Api.hbind, Api.call.
  rewrite (get_note_of_decimal w' _ Hk), get_note_spec.
  assert (Hr : resolve (Int (next_rowid (table w))) (table w') = Ok (Some n)).
  { apply resolve_Int_find. unfold w'. cbn [table].
    apply find_app_miss; [apply next_rowid_fresh|].
    unfold has_id, n. simpl. apply Z.eqb_refl. }
  rewrite Hr. reflexivity.
Qed.

Lemma api_create_then_get_witness :
  exists out w',
    Api.api_create_note (Api.mkNoteCreate "C" "see [[B]]" ["x"]) world_A_B
    = (inl out, w')
    /\ Api.api_get_note (PyStr.str_of_int (Api.out_id out)) w' = (inl out, w').
Proof.
  destruct (api_create_then_get world_A_B
              (Api.mkNoteCreate "C" "see [[B]]" ["x"]))
    as (out & w' & Hc & _ & _ & _ & _ & _ & Hg); [vm_compute; discriminate|].
  exists out, w'. split; assumption.
Defined.

End Handlers.

(** ** Timestamps *)

Section Timestamps.

Lemma edit_note_run_times (w : world) (i : identifier) (n : Note)
  (title_ content_ : option string) (tags_ : option (list string))
  (archived_ pinned_ : option bool) :
  resolve i (table w) = Ok (Some n) ->
  exists n' : Note,
    created_at n' = created_at n
    /\ updated_at n' = clock w (ticks w)
    /\ edit_note i title_ content_ tags_ archived_ pinned_ w
       = (Ok n', with_table (rewritten n' (table w)) (ticked w)).
Proof.
  intros H.
  set (tags_list := match tags_ with
                    | None => None
                    | Some l => Some (_normal_tags (Some l))
                    end).
  set (n1 := assign tags_list (fun l => set_tags (Some l))
               (assign content_ with_content (assign title_ with_title n))).
  set (n' := with_updated_at (clock w (ticks w))
               (assign pinned_ with_pinned
                  (assign archived_ with_archived n1))).
  exists n'. split; [|split].
  - destruct (assign_tags_frame tags_list
                (assign content_ with_content (assign title_ with_title n)))
      as (_ & _ & _ & _ & _ & Hcr & _).
    fold n1 in Hcr. unfold n'. destruct pinned_, archived_; simpl; rewrite Hcr;
      destruct content_, title_; reflexivity.
  - reflexivity.
  - unfold edit_note. fold tags_list. unfold session_scope at 1, bind at 1.
    rewrite get_note_spec, H. unfold bind at 1, Session_merge, ret at 1.
    fold n1. unfold bind at 1, now. cbn [table clock ticks]. fold n'.
    change (bind (Session_update n')
              (fun _ => bind (Session_refresh n') (fun note => ret note))
              (mkWorld (table w) (clock w) (S (ticks w))))
      with ((Session_update n' ;;; (r <- Session_refresh n' ;; ret r))
              (ticked w)).
    rewrite write_back. reflexivity.
Qed.

Lemma timestamps_later (t : list Note) (c : nat -> datetime) (k k' : nat) :
  (forall a b : nat, (a <= b)%nat -> c a <= c b) -> (k <= k')%nat ->
  Forall (fun r => created_at r <= updated_at r /\ created_at r <= c k) t ->
  Forall (fun r => created_at r <= updated_at r /\ created_at r <= c k') t.
Proof.
  intros Hm Hk. apply Forall_impl. intros r (H1 & H2). split; [exact H1|].
  specialize (Hm k k' Hk). lia.
Qed.

Lemma timestamps_rewritten (w : world) (n n' : Note) :
  monotone_clock w -> timestamps_ok w -> In n (table w) ->
  created_at n' = created_at n -> updated_at n' = clock w (ticks w) ->
  timestamps_ok (with_table (rewritten n' (table w)) (ticked w)).
Proof.
  intros Hm Hok Hin Hc Hu. unfold timestamps_ok in *.
  cbn [table clock ticks with_table ticked].
  assert (Hn : created_at n <= clock w (ticks w)).
  { rewrite Forall_forall in Hok. now destruct (Hok n Hin). }
  pose proof (Hm (ticks w) (S (ticks w)) (Nat.le_succ_diag_r _)) as Hstep.
  apply Forall_forall. intros r Hr. apply in_map_iff in Hr as (x & <- & Hx).
  destruct (same_row n' x).
  - rewrite Hc, Hu. lia.
  - rewrite Forall_forall in Hok. destruct (Hok x Hx). lia.
Qed.

(** X14. With a clock that never goes back, every service function keeps each
    row's [created_at] no later than its [updated_at]. *)
Theorem timestamps_stay_ordered (w : world) (i : identifier)
  (title_ content_ : string) (new_title new_content : option string)
  (tags_ new_tags : option (list string)) (archived_ pinned_ : option bool)
  (v hard : bool) :
  monotone_clock w -> timestamps_ok w ->
  timestamps_ok (after (create_note title_ content_ tags_) w)
  /\ timestamps_ok (after (edit_note i new_title new_content new_tags
                             archived_ pinned_) w)
  /\ timestamps_ok (after (delete_note i hard) w)
  /\ timestamps_ok (after (pin_note i v) w)
  /\ timestamps_ok (after (archive_note i v) w).
Proof.
  intros Hm Hok. split.
  { unfold after. pose proof (create_note_run w title_ content_ tags_) as Hc.
    cbv zeta in Hc. rewrite Hc. unfold timestamps_ok in *.
    cbn [snd table clock ticks].
    pose proof (Hm (ticks w) (S (ticks w)) (Nat.le_succ_diag_r _)) as H1.
    pose proof (Hm (ticks w) (S (S (ticks w)))) as H2.
    apply Forall_app. split.
    - apply (timestamps_later _ _ (ticks w)); [exact Hm|lia|exact Hok].
    - constructor; [|constructor]. cbn [created_at updated_at].
      split; [exact H1|apply H2; lia]. }
  destruct (resolve_cases i (table w)) as [(n & H)|H].
  - pose proof (resolve_In _ _ _ H) as Hin. unfold after.
    destruct (edit_note_run_times w i n new_title new_content new_tags
                archived_ pinned_ H) as (n' & Hc & Hu & ->).
    pose proof (pin_note_spec w i n v H) as Hp.
    pose proof (archive_note_spec w i n v H) as Ha.
    cbv zeta in Hp, Ha. rewrite Hp, Ha. cbn [snd].
    refine (conj _ (conj _ (conj _ _)));
      try (apply (timestamps_rewritten w n); trivial; reflexivity).
    destruct hard.
    + rewrite (delete_note_hard_spec w i n H). cbn [snd].
      unfold timestamps_ok in *. cbn [table clock ticks with_table].
      apply Forall_forall. intros r Hr. apply removed_In in Hr.
      rewrite Forall_forall in Hok. now apply Hok.
    + rewrite (delete_note_soft_spec w i n H). cbn [snd].
      apply (timestamps_rewritten w n); trivial; reflexivity.
  - destruct (missing_runs w i new_title new_content new_tags archived_
                pinned_ v hard H) as (-> & -> & -> & ->).
    refine (conj _ (conj _ (conj _ _))); exact Hok.
Qed.

Lemma timestamps_stay_ordered_witness :
  timestamps_ok (after (create_note "c" "d" None) world_A_B)
  /\ timestamps_ok (after (archive_note (Int 1) true) world_A_B).
Proof.
  assert (Hm : monotone_clock world_A_B).
  { intros a b Hab.
    change (1000 + Z.of_nat a <= 1000 + Z.of_nat b). lia. }
  assert (Hok : timestamps_ok world_A_B).
  { repeat constructor; vm_compute; discriminate. }
  destruct (timestamps_stay_ordered world_A_B (Int 1) "c" "d" None None None
              None None None true true Hm Hok) as (Hc & _ & _ & _ & Ha).
  split; [exact Hc|exact Ha].
Defined.

End Timestamps.

(** ** Backlinks, in general *)

Section BacklinksGeneral.

(** X27. [backlinks_for] returns the empty list when [get_note] gives no
    note, and raises what [get_note] raises.  For a target whose LIKE
    pattern the engine accepts (at most 50000 bytes), it returns exactly
    the rows, archived ones only if asked for, whose content matches the
    pattern made of the target's title in double brackets between two [%];
    when the title has no [%], no [_] and no NUL, these are the rows whose
    content, read up to its first NUL, contains the bracketed title up to
    letter case.  The world stays as it is. *)
Theorem backlinks_for_selects_like_matches (w : world) (i : identifier)
  (include_archived : bool) :
  (value (get_note i) w = Ok None ->
   backlinks_for i include_archived w = (Ok [], w))
  /\ (forall e, value (get_note i) w = Raise e ->
      backlinks_for i include_archived w = (Raise e, w))
  /\ (forall target, value (get_note i) w = Ok (Some target) ->
      Sql.too_complex ("%[[" ++ title target ++ "]]%") = false ->
      exists l : list Note,
        backlinks_for i include_archived w = (Ok l, w)
        /\ (forall n, In n l <->
              In n (table w)
              /\ (include_archived = true \/ archived n = false)
              /\ Sql.like ("%[[" ++ title target ++ "]]%") (content n) = true)
        /\ (Sql.wildcard_free (title target) = true ->
            Sql.nul_free (title target) = true ->
            forall n, In n l <->
              In n (table w)
              /\ (include_archived = true \/ archived n = false)
              /\ PyStr.contains (PyStr.lower ("[[" ++ title target ++ "]]"))
                   (PyStr.lower (Sql.upto_nul (content n))) = true)).
Proof.
  split; [|split].
  - intros H. apply resolve_of_value in H.
    unfold backlinks_for, bind at 1. rewrite get_note_spec, H. reflexivity.
  - intros e H. unfold value in H. rewrite get_note_spec in H. cbn [fst] in H.
    unfold backlinks_for, bind at 1. rewrite get_note_spec, H. reflexivity.
  - intros target H Hfit. apply resolve_of_value in H.
    eexists.
    split; [exact (backlinks_for_hit w i target include_archived H Hfit)|].
    assert (Hl : forall n,
               In n (filter (fun n =>
                        where_archived include_archived n
                        && Sql.like ("%[[" ++ title target ++ "]]%") (content n))
                       (table w)) <->
               In n (table w)
               /\ (include_archived = true \/ archived n = false)
               /\ Sql.like ("%[[" ++ title target ++ "]]%") (content n) = true).
    { intros n. rewrite filter_In, andb_true_iff, where_archived_iff. tauto. }
    split; [exact Hl|].
    intros Hw Hz n. rewrite Hl, backlink_pattern, like_contains.
    + tauto.
    + now rewrite wildcard_free_marker.
    + now rewrite nul_free_marker.
Qed.

Lemma backlinks_for_selects_like_matches_witness :
  backlinks_for (Str "nope") false world_A_B = (Ok [], world_A_B)
  /\ backlinks_for (Str "9223372036854775808") false world_A_B
     = (Raise int_too_large, world_A_B)
  /\ exists l : list Note,
       backlinks_for (Str "B") false world_A_B = (Ok l, world_A_B)
       /\ forall n, In n l <->
            In n (table world_A_B)
            /\ (false = true \/ archived n = false)
            /\ PyStr.contains (PyStr.lower "[[B]]")
                 (PyStr.lower (Sql.upto_nul (content n))) = true.
Proof.
  split; [|split].
  - apply (backlinks_for_selects_like_matches world_A_B (Str "nope") false).
    reflexivity.
  - apply (backlinks_for_selects_like_matches world_A_B
             (Str "9223372036854775808") false).
    reflexivity.
  - destruct (backlinks_for_selects_like_matches world_A_B (Str "B") false)
      as (_ & _ & H).
    destruct (H (mkNote (Some 2) "B" "world" "beta" false false 1002 1003))
      as (l & He & _ & Hc); [reflexivity|reflexivity|].
    exists l. split; [exact He|]. apply Hc; reflexivity.
Defined.

End BacklinksGeneral.

(** ** Patterns the engine refuses *)

Section PatternLimit.

Lemma select_rows_none (c : clause) (t : list Note) :
  (forall n, In n t -> c n = Ok false) -> select_rows c t = Ok [].
Proof.
  induction t as [|r t IH]; intros H; [reflexivity|]. simpl.
  rewrite (H r) by now left. rewrite IH; [reflexivity|].
  intros n Hn. apply H. now right.
Qed.

Lemma select_rows_raises (c : clause) (e : exn) (t : list Note) :
  (forall n, In n t -> c n = Ok false \/ c n = Raise e) ->
  (exists n, In n t /\ c n = Raise e) ->
  select_rows c t = Raise e.
Proof.
  induction t as [|r t IH]; intros Hall (n & Hin & Hn); [destruct Hin|].
  simpl. destruct (Hall r (or_introl eq_refl)) as [Hr|Hr]; rewrite Hr;
    [|reflexivity].
  rewrite IH; [reflexivity| |].
  - intros m Hm. apply Hall. now right.
  - destruct Hin as [->|Hin]; [congruence|]. now exists n.
Qed.

(** X28. With a tag filter whose LIKE pattern is longer than 50000 bytes,
    [list_notes] raises the engine's error as soon as one row of the table
    passes the archived test, and returns the empty list when none does (the
    LIKE is then never evaluated); the world stays as it is. *)
Theorem list_notes_pattern_too_complex (w : world) (tag sort : string)
  (search : option string) (include_archived : bool) :
  PyStr.truthy tag = true ->
  Sql.too_complex ("%" ++ PyStr.lower (PyStr.strip tag) ++ "%") = true ->
  ((exists n, In n (table w)
              /\ (include_archived = true \/ archived n = false)) ->
   list_notes (Some tag) search include_archived sort w
   = (Raise pattern_too_complex, w))
  /\ ((forall n, In n (table w) ->
         include_archived = false /\ archived n = true) ->
      list_notes (Some tag) search include_archived sort w = (Ok [], w)).
Proof.
  intros Htag Hlong.
  assert (Hc : forall n,
             list_clause (Some tag) search include_archived n
             = if where_archived include_archived n
               then Raise pattern_too_complex else Ok false).
  { intros n. unfold list_clause, tag_clause, like_op, test.
    rewrite Htag. cbv zeta. rewrite Hlong.
    now destruct (where_archived include_archived n). }
  split.
  - intros (n & Hin & Ha). apply where_archived_iff in Ha.
    unfold list_notes, session_scope, Session_exec, bind.
    rewrite (select_rows_raises _ pattern_too_complex).
    + cbn [table clock ticks]. now rewrite world_eta.
    + intros m _. rewrite Hc.
      destruct (where_archived include_archived m); auto.
    + exists n. split; [exact Hin|]. now rewrite Hc, Ha.
  - intros Hall.
    unfold list_notes, session_scope, Session_exec, bind, ret.
    rewrite select_rows_none; [reflexivity|].
    intros n Hn. rewrite Hc. destruct (Hall n Hn) as (-> & Ha).
    unfold where_archived. now rewrite Ha.
Qed.

Lemma list_notes_pattern_too_complex_witness :
  list_notes (Some long_filter) None false "updated" world_A_B
  = (Raise pattern_too_complex, world_A_B)
  /\ list_notes (Some long_filter) None false "updated" empty_world
     = (Ok [], empty_world).
Proof.
  split.
  - apply (list_notes_pattern_too_complex world_A_B long_filter "updated"
             None false); [vm_compute; reflexivity|vm_compute; reflexivity|].
    eexists. split; [now left|now right].
  - apply (list_notes_pattern_too_complex empty_world long_filter "updated"
             None false); [vm_compute; reflexivity|vm_compute; reflexivity|].
    intros n [].
Defined.

End PatternLimit.
